(** * Origami Store (src/origami.py): shallow embedding of the fetch, cache,
    catalog and operation-runner paths of the [FlatpakStore] class. *)

From Stdlib Require Import Ascii String List ZArith Bool.
From stdpp Require Import base gmap strings list pretty.
Import ListNotations.
Open Scope string_scope.
Set Warnings "-register-all".

Infix "+++" := String.append (at level 60, right associativity).

(* ================================================================== *)
(** ** Python [str] helpers used by the code                           *)
(* ================================================================== *)
(* Strings are byte strings ([String.string]), UTF-8 for non-ASCII text.
   [str.isspace] and the [lower] below are modelled on the ASCII range, which
   is what they meet on app ids (reverse-DNS names) and on tool output;
   [filter_apps], which lowers free Unicode text, takes Python's [str.lower]
   as a parameter instead. *)

(** [c.isspace()] for an ASCII character: \t \n \x0b \x0c \r, \x1c-\x1f and
    the space. *)
Definition py_isspace (c : ascii) : bool :=
  let n := nat_of_ascii c in
  (((9 <=? n) && (n <=? 13)) || ((28 <=? n) && (n <=? 32)))%nat.

(** [s.lstrip()] *)
Fixpoint lstrip (s : string) : string :=
  match s with
  | EmptyString => EmptyString
  | String c r => if py_isspace c then lstrip r else s
  end.

(** [s.rstrip()] *)
Fixpoint rstrip (s : string) : string :=
  match s with
  | EmptyString => EmptyString
  | String c r =>
      let r' := rstrip r in
      match r' with
      | EmptyString => if py_isspace c then EmptyString else String c EmptyString
      | _ => String c r'
      end
  end.

(** [s.strip()] *)
Definition strip (s : string) : string := rstrip (lstrip s).

(** Truthiness of a Python [str]: non-empty. *)
Definition str_truthy (s : string) : bool :=
  match s with EmptyString => false | _ => true end.

(** Every character is whitespace ([s.strip()] is then empty). *)
Fixpoint is_blank (s : string) : bool :=
  match s with
  | EmptyString => true
  | String c r => py_isspace c && is_blank r
  end.

(** [s.split(sep)] for a one-character separator. *)
Fixpoint split_on (sep : ascii) (s : string) : list string :=
  match s with
  | EmptyString => [EmptyString]
  | String c r =>
      let rest := split_on sep r in
      if Ascii.eqb c sep then EmptyString :: rest
      else match rest with
           | h :: t => String c h :: t
           | [] => [String c EmptyString]
           end
  end.

(** [ch in s] for a single character. *)
Fixpoint has_char (ch : ascii) (s : string) : bool :=
  match s with
  | EmptyString => false
  | String c r => Ascii.eqb c ch || has_char ch r
  end.

(** [String.prefix p s]: [s.startswith(p)]. *)
Fixpoint starts_with (p s : string) : bool :=
  match p, s with
  | EmptyString, _ => true
  | String c p', String d s' => Ascii.eqb c d && starts_with p' s'
  | String _ _, EmptyString => false
  end.

(** [sub in s] (substring test). *)
Fixpoint contains (sub s : string) : bool :=
  starts_with sub s ||
  match s with
  | EmptyString => false
  | String _ r => contains sub r
  end.

(** [s.lower()] on ASCII (app ids). *)
Definition lower_char (c : ascii) : ascii :=
  let n := nat_of_ascii c in
  if ((65 <=? n) && (n <=? 90))%nat then ascii_of_nat (n + 32)%nat else c.

Fixpoint lower (s : string) : string :=
  match s with
  | EmptyString => EmptyString
  | String c r => String (lower_char c) (lower r)
  end.

Definition TAB : ascii := Ascii.ascii_of_nat 9.
Definition NL : ascii := Ascii.ascii_of_nat 10.

(* ================================================================== *)
(** ** JSON values as returned by [response.json()]                    *)
(* ================================================================== *)
(* Objects keep the order of their members; [json.loads] keeps the last of
   duplicated keys, so [get] looks the key up from the end. Numbers are
   integers: the fields read here are strings, lists and objects. *)

Inductive json : Type :=
  | JNull
  | JBool (b : bool)
  | JNum (z : Z)
  | JStr (s : string)
  | JArr (l : list json)
  | JObj (kv : list (string * json)).

Fixpoint assoc_last (k : string) (kv : list (string * json)) : option json :=
  match kv with
  | [] => None
  | (k', v) :: r =>
      match assoc_last k r with
      | Some w => Some w
      | None => if String.eqb k k' then Some v else None
      end
  end.

(** [d.get(k, default)] on a dict. *)
Definition dget (kv : list (string * json)) (k : string) (dflt : json) : json :=
  match assoc_last k kv with Some v => v | None => dflt end.

(** Python truthiness of a decoded JSON value. *)
Definition truthy (v : json) : bool :=
  match v with
  | JNull => false
  | JBool b => b
  | JNum z => negb (Z.eqb z 0)
  | JStr s => str_truthy s
  | JArr l => match l with [] => false | _ => true end
  | JObj kv => match kv with [] => false | _ => true end
  end.

(* ================================================================== *)
(** ** Catalog normalization: [_parse_v2_response]                     *)
(* ================================================================== *)

(** The dict appended per entry (lines 727-734 / 737-744). *)
Record app_dict : Type := {
  flatpakAppId : json;
  name : json;
  summary : json;
  categories : json;
  icon : json;
  screenshots : json
}.

Definition NO_DESCRIPTION : string := "No description available".

(** Body of the loop for one entry [app]; [app.get] raises
    [AttributeError] unless [app] is a dict, modelled by [None]. *)
Definition normalize_entry (app : json) : option app_dict :=
  match app with
  | JObj kv =>
      Some {| flatpakAppId := dget kv "id" (dget kv "flatpakAppId" (JStr ""));
              name := dget kv "name" (dget kv "id" (JStr ""));
              summary := dget kv "summary" (dget kv "description" (JStr NO_DESCRIPTION));
              categories := dget kv "categories" (JArr []);
              icon := dget kv "icon" (JStr "");
              screenshots := dget kv "screenshots" (JArr []) |}
  | _ => None
  end.

(** [for app in xs: apps.append(...)], stopping at the first exception. *)
Fixpoint parse_entries (xs : list json) : option (list app_dict) :=
  match xs with
  | [] => Some []
  | x :: r =>
      match normalize_entry x with
      | None => None
      | Some d =>
          match parse_entries r with
          | None => None
          | Some ds => Some (d :: ds)
          end
      end
  end.

(** Iterating [data['apps']]: a list yields its items, a dict its keys and
    a str its characters (both strings, on which [.get] raises); any other
    value is not iterable ([TypeError]). *)
Definition iterate_apps (v : json) : option (list app_dict) :=
  match v with
  | JArr l => parse_entries l
  | JObj [] => Some []
  | JStr EmptyString => Some []
  | _ => None
  end.

(** [_parse_v2_response(data)]: [None] is an exception raised to the
    caller (which then falls back to [_load_apps_via_flatpak]). *)
Definition _parse_v2_response (data : json) : option (list app_dict) :=
  match data with
  | JArr l => parse_entries l
  | JObj kv =>
      match assoc_last "apps" kv with
      | Some v => iterate_apps v
      | None => Some []
      end
  | _ => Some []
  end.

(* ================================================================== *)
(** ** [_guess_category_from_id]                                       *)
(* ================================================================== *)

Definition any_in (terms : list string) (s : string) : bool :=
  existsb (fun t => contains t s) terms.

Definition _guess_category_from_id (app_id : string) : list string :=
  let app_id_lower := lower app_id in
  if any_in ["firefox"; "chrome"; "telegram"; "discord"; "thunderbird"] app_id_lower
  then ["Network"]
  else if any_in ["libreoffice"; "writer"; "calc"] app_id_lower then ["Office"]
  else if any_in ["gimp"; "inkscape"; "blender"; "krita"] app_id_lower then ["Graphics"]
  else if any_in ["vlc"; "audacity"; "spotify"] app_id_lower then ["AudioVideo"]
  else if any_in ["steam"; "game"; "chess"; "puzzle"] app_id_lower then ["Game"]
  else if any_in ["code"; "atom"; "eclipse"; "git"] app_id_lower then ["Development"]
  else if any_in ["calculator"; "archive"; "file"] app_id_lower then ["Utility"]
  else ["Other"].

(** The spec's reading: a keyword -> category table, first matching rule
    wins, ["Other"] when none matches. *)
Definition category_rules : list (list string * string) :=
  [(["firefox"; "chrome"; "telegram"; "discord"; "thunderbird"], "Network");
   (["libreoffice"; "writer"; "calc"], "Office");
   (["gimp"; "inkscape"; "blender"; "krita"], "Graphics");
   (["vlc"; "audacity"; "spotify"], "AudioVideo");
   (["steam"; "game"; "chess"; "puzzle"], "Game");
   (["code"; "atom"; "eclipse"; "git"], "Development");
   (["calculator"; "archive"; "file"], "Utility")].

Definition spec_guess_category (app_id : string) : list string :=
  match find (fun r => any_in (fst r) (lower app_id)) category_rules with
  | Some r => [snd r]
  | None => ["Other"]
  end.

(* ================================================================== *)
(** ** Running the external tool                                       *)
(* ================================================================== *)

(** The outcome of one [subprocess.run(...)]: it raised (binary missing,
    timeout, ...), or the process exited with a return code and output. *)
Inductive run_result : Type :=
  | RunRaised (err : string)
  | RunDone (returncode : Z) (stdout stderr : string).

(* ================================================================== *)
(** ** Fallback catalog loader: [_load_apps_via_flatpak]               *)
(* ================================================================== *)

(** The dict appended by the fallback loader (four keys). *)
Record flatpak_app : Type := {
  fp_flatpakAppId : string;
  fp_name : string;
  fp_summary : string;
  fp_categories : list string
}.

Definition mk_app (i n s : string) (c : list string) : flatpak_app :=
  {| fp_flatpakAppId := i; fp_name := n; fp_summary := s; fp_categories := c |}.

(** Loop body for one line of [remote-ls] output (lines 758-774). *)
Definition remote_line_apps (line : string) : list flatpak_app :=
  if str_truthy (strip line) && has_char TAB line then
    match split_on TAB line with
    | p0 :: p1 :: rest =>
        let app_id := p0 in
        let nm := if str_truthy p1 then p1 else app_id in
        let description := match rest with p2 :: _ => p2 | [] => NO_DESCRIPTION end in
        [mk_app app_id nm description (_guess_category_from_id app_id)]
    | _ => []
    end
  else [].

Definition popular_apps : list flatpak_app :=
  [mk_app "org.mozilla.firefox" "Firefox" "Web browser" ["Network"];
   mk_app "org.libreoffice.LibreOffice" "LibreOffice" "Office suite" ["Office"];
   mk_app "org.gimp.GIMP" "GIMP" "Image editor" ["Graphics"];
   mk_app "org.videolan.VLC" "VLC" "Media player" ["AudioVideo"];
   mk_app "org.blender.Blender" "Blender" "3D creation suite" ["Graphics"];
   mk_app "com.valvesoftware.Steam" "Steam" "Gaming platform" ["Game"];
   mk_app "org.telegram.desktop" "Telegram" "Messaging app" ["Network"];
   mk_app "com.spotify.Client" "Spotify" "Music streaming" ["AudioVideo"];
   mk_app "org.gnome.gedit" "Text Editor" "Simple text editor" ["Utility"];
   mk_app "org.kde.kate" "Kate" "Advanced text editor" ["Development"]].

(** [_load_apps_via_flatpak()]: the returned list and the lines printed.
    An exception from [subprocess.run] jumps to the [except] at line 799,
    past the [if not apps] seed block. *)
Definition _load_apps_via_flatpak (r : run_result) : list flatpak_app * list string :=
  match r with
  | RunRaised err => ([], ["Error in fallback app loading: " +++ err])
  | RunDone rc out _ =>
      let apps :=
        if Z.eqb rc 0 then flat_map remote_line_apps (split_on NL (strip out)) else [] in
      match apps with
      | [] => (popular_apps, [])
      | _ => (apps, [])
      end
  end.

(* ================================================================== *)
(** ** Installed-set tracker: line parsing of [load_installed_apps]    *)
(* ================================================================== *)

(** Loop body for one line of [flatpak list] output (lines 612-621): the
    [(app_id, name, description)] passed to [add_installed_app_card]. *)
Definition installed_line_entry (line : string) : list (string * string * string) :=
  if str_truthy (strip line) then
    match split_on TAB line with
    | p0 :: p1 :: rest =>
        let app_id := p0 in
        (* [parts[1] if len(parts) > 1 else app_id]: the [else] branch is
           unreachable under the guard [len(parts) >= 2] *)
        let nm := p1 in
        let description := match rest with p2 :: _ => p2 | [] => NO_DESCRIPTION end in
        [(app_id, nm, description)]
    | _ => []
    end
  else [].

Definition installed_entries (stdout : string) : list (string * string * string) :=
  flat_map installed_line_entry (split_on NL (strip stdout)).

(** [sep.join(cols)] for a one-character separator. *)
Fixpoint join_on (sep : ascii) (cols : list string) : string :=
  match cols with
  | [] => EmptyString
  | [c] => c
  | c :: rest => c +++ String sep (join_on sep rest)
  end.

(* ================================================================== *)
(** ** A small state monad for the methods that mutate [self]          *)
(* ================================================================== *)

Module StateM.
Definition t (S A : Type) : Type := S -> A * S.
Definition ret {S A} (a : A) : t S A := fun s => (a, s).
Definition bind {S A B} (m : t S A) (k : A -> t S B) : t S B :=
  fun s => let (a, s') := m s in k a s'.
Definition modify {S} (f : S -> S) : t S unit := fun s => (tt, f s).
Definition gets {S A} (f : S -> A) : t S A := fun s => (f s, s).
Definition exec {S A} (m : t S A) (s : S) : S := snd (m s).
Definition eval {S A} (m : t S A) (s : S) : A := fst (m s).
End StateM.

Notation "x <- m ;; k" := (StateM.bind m (fun x => k))
  (at level 93, m at next level, right associativity).
Notation "m ;;; k" := (StateM.bind m (fun _ => k))
  (at level 93, right associativity).

(* ================================================================== *)
(** ** Disk image cache: [download_image]                              *)
(* ================================================================== *)

Definition bytes := list Byte.byte.

(** What [requests.get(url, timeout=10, stream=True)] and the streaming
    loop produce: the request (or [raise_for_status]) failed before the
    cache file was opened; the stream broke after [written] was written;
    or the whole body arrived. *)
Inductive get_result : Type :=
  | GetFailed (err : string)
  | StreamBroken (written : bytes) (err : string)
  | GetOk (body : bytes).

(** Observable effects of [download_image], in order. *)
Inductive cache_event : Type :=
  | EvRemove (path : string)       (* os.remove *)
  | EvGet (url : string)           (* requests.get *)
  | EvPrint (msg : string).        (* print *)

Record cache_state : Type := {
  cache_files : gmap string bytes;   (* files under self.cache_dir *)
  cache_log : list cache_event
}.

Section ImageCache.
(** A decoded [GdkPixbuf.Pixbuf]. *)
Variable Image : Type.
(** [hashlib.md5(url.encode()).hexdigest()] *)
Variable md5_hexdigest : string -> string.
(** [GdkPixbuf.Pixbuf.new_from_file_at_scale(path, w, h, True)] applied to
    the file's bytes: a pixbuf or the message of the raised error. *)
Variable new_from_file_at_scale : bytes -> Z -> Z -> Image + string.
Variable cache_dir : string.

Definition cache_path (url : string) : string :=
  cache_dir +++ "/" +++ md5_hexdigest url +++ ".png".

Definition log_event (e : cache_event) : StateM.t cache_state unit :=
  StateM.modify (fun s => {| cache_files := cache_files s; cache_log := cache_log s ++ [e] |}).

Definition os_remove (p : string) : StateM.t cache_state unit :=
  StateM.modify (fun s => {| cache_files := delete p (cache_files s);
                             cache_log := cache_log s ++ [EvRemove p] |}).

Definition write_file (p : string) (b : bytes) : StateM.t cache_state unit :=
  StateM.modify (fun s => {| cache_files := <[p:=b]> (cache_files s); cache_log := cache_log s |}).

Definition download_error (url err : string) : StateM.t cache_state (option Image) :=
  log_event (EvPrint ("Error downloading image " +++ url +++ ": " +++ err)) ;;;
  StateM.ret None.

(** [download_image(url, max_size)] *)
Definition download_image (url : string) (max_size : Z * Z) (resp : get_result)
  : StateM.t cache_state (option Image) :=
  if negb (str_truthy url) then StateM.ret None else
  let path := cache_path url in
  files <- StateM.gets cache_files ;;
  cached <-
    match files !! path with
    | Some b =>
        match new_from_file_at_scale b (fst max_size) (snd max_size) with
        | inl img => StateM.ret (Some img)
        | inr _ => os_remove path ;;; StateM.ret None   (* corrupted cache *)
        end
    | None => StateM.ret None
    end ;;
  match cached with
  | Some img => StateM.ret (Some img)
  | None =>
      log_event (EvGet url) ;;;
      match resp with
      | GetFailed err => download_error url err
      | StreamBroken w err => write_file path w ;;; download_error url err
      | GetOk body =>
          write_file path body ;;;
          match new_from_file_at_scale body (fst max_size) (snd max_size) with
          | inl img => StateM.ret (Some img)
          | inr err => download_error url err
          end
      end
  end.
End ImageCache.

Arguments cache_path : clear implicits.
Arguments download_image {Image}.

(** The cache files after the network part of [download_image] ran on a
    miss, [files] being the state after the corrupt-entry removal. *)
Definition files_after_fetch (p : string) (files : gmap string bytes) (resp : get_result)
  : gmap string bytes :=
  match resp with
  | GetFailed _ => files
  | StreamBroken w _ => <[p:=w]> files
  | GetOk body => <[p:=body]> files
  end.

(** The network part of [download_image] ends in an error: the request or
    the stream failed, or the downloaded body does not decode. *)
Definition fetch_fails {Image} (dec : bytes -> Z -> Z -> Image + string)
    (max_size : Z * Z) (resp : get_result) : Prop :=
  match resp with
  | GetOk body => exists e, dec body (fst max_size) (snd max_size) = inr e
  | _ => True
  end.

Definition decoded {A} (r : A + string) : option A :=
  match r with inl a => Some a | inr _ => None end.

(* ================================================================== *)
(** ** Remote fetcher: icon and screenshot URLs                        *)
(* ================================================================== *)

(** The outcome of [requests.get(detail_url, timeout=10)] followed by
    [response.json()] ([None]: the body is not valid JSON). *)
Inductive http_result : Type :=
  | HttpRaised (err : string)
  | HttpResponse (status_code : Z) (body : option json).

Definition get_app_icon_url (app_id : string) : string :=
  "https://flathub.org/repo/appstream/x86_64/icons/128x128/" +++ app_id +++ ".png".

(** [get_app_screenshot_urls(app_id)]; every exception inside the [try]
    ([.json()] on a bad body, [.get] on a non-dict, slicing a dict or a
    number, [.get] on a character of a string) ends in the icon fallback. *)
Definition get_app_screenshot_urls (app_id : string) (resp : http_result) : list json :=
  let fallback := [JStr (get_app_icon_url app_id)] in
  match resp with
  | HttpResponse status (Some data) =>
      if Z.eqb status 200 then
        match data with
        | JObj kv =>
            let shots := dget kv "screenshots" (JArr []) in
            if truthy shots then
              match shots with
              | JArr (shot :: _) =>
                  match shot with
                  | JObj skv => [dget skv "imgDesktopUrl" (JStr "")]
                  | _ => fallback
                  end
              | _ => fallback
              end
            else fallback
        | _ => fallback
        end
      else fallback
  | _ => fallback
  end.

(* ================================================================== *)
(** ** Operation runner: install / uninstall / update / update all     *)
(* ================================================================== *)

(** UI methods the workers call. *)
Inductive ui_call : Type :=
  | ShowStatus (msg : string)          (* self.show_status: the status sink *)
  | LoadInstalledApps                  (* self.load_installed_apps *)
  | RefreshCurrentView                 (* self.refresh_current_view *)
  | ShowProgress (show : bool).        (* self.show_progress *)

(** A call made on the spot, or posted with [GLib.idle_add]. *)
Inductive ui_event : Type :=
  | Direct (c : ui_call)
  | Idle (c : ui_call).

Record app_state : Type := {
  current_operations : gmap string string;   (* OperationState *)
  installed_apps : gset string;              (* InstalledSet *)
  events : list ui_event
}.

Definition post (e : ui_event) : StateM.t app_state unit :=
  StateM.modify (fun s => {| current_operations := current_operations s;
                             installed_apps := installed_apps s;
                             events := events s ++ [e] |}).

Definition idle (c : ui_call) := post (Idle c).
Definition direct (c : ui_call) := post (Direct c).

Definition set_operation (app_id label : string) : StateM.t app_state unit :=
  StateM.modify (fun s => {| current_operations := <[app_id:=label]> (current_operations s);
                             installed_apps := installed_apps s;
                             events := events s |}).

(** [if app_id in self.current_operations: del self.current_operations[app_id]] *)
Definition clear_operation (app_id : string) : StateM.t app_state unit :=
  StateM.modify (fun s => {| current_operations := delete app_id (current_operations s);
                             installed_apps := installed_apps s;
                             events := events s |}).

Definition add_installed (app_id : string) : StateM.t app_state unit :=
  StateM.modify (fun s => {| current_operations := current_operations s;
                             installed_apps := {[app_id]} ∪ installed_apps s;
                             events := events s |}).

Definition discard_installed (app_id : string) : StateM.t app_state unit :=
  StateM.modify (fun s => {| current_operations := current_operations s;
                             installed_apps := installed_apps s ∖ {[app_id]};
                             events := events s |}).

(** What [subprocess.Popen] of the install and its output loop do: the
    lines read before it raised (none when the launch itself raised), or
    all the lines and the return code of [process.wait()]. *)
Inductive popen_result : Type :=
  | PopenRaised (lines : list string) (err : string)
  | PopenExited (lines : list string) (returncode : Z).

Fixpoint stream_install_lines (nm : string) (lines : list string) : StateM.t app_state unit :=
  match lines with
  | [] => StateM.ret tt
  | l :: r =>
      (if str_truthy (strip l)
       then idle (ShowStatus ("Installing " +++ nm +++ ": " +++ strip l))
       else StateM.ret tt) ;;;
      stream_install_lines nm r
  end.

(** [install_worker] (lines 1007-1037): [try] body, [except], [finally]. *)
Definition install_worker (app_id nm : string) (r : popen_result) : StateM.t app_state unit :=
  (direct (ShowProgress true) ;;;
   idle (ShowStatus ("Installing " +++ nm +++ "...")) ;;;
   match r with
   | PopenRaised lines err =>
       stream_install_lines nm lines ;;;
       idle (ShowStatus ("Error installing " +++ nm +++ ": " +++ err))
   | PopenExited lines rc =>
       stream_install_lines nm lines ;;;
       if Z.eqb rc 0 then
         add_installed app_id ;;;
         idle (ShowStatus ("Successfully installed " +++ nm)) ;;;
         idle LoadInstalledApps
       else idle (ShowStatus ("Failed to install " +++ nm))
   end) ;;;
  (clear_operation app_id ;;;
   idle RefreshCurrentView ;;;
   idle (ShowProgress false)).

(** [install_app(button, app_id, name)], running its worker to the end.
    The direct [refresh_current_view()] (line 1005) runs [display_apps] on
    the Store tab, which may raise ([refresh_raised]): the method then stops
    there, before the worker thread is started. *)
Definition install_app_at (refresh_raised : bool) (app_id nm : string) (r : popen_result)
  : StateM.t app_state unit :=
  set_operation app_id ("Installing " +++ nm +++ "...") ;;;
  direct RefreshCurrentView ;;;
  if refresh_raised then StateM.ret tt else install_worker app_id nm r.

(** [install_app] when its direct refresh returns. *)
Definition install_app (app_id nm : string) (r : popen_result) : StateM.t app_state unit :=
  install_app_at false app_id nm r.

Definition uninstall_worker (app_id nm : string) (r : run_result) : StateM.t app_state unit :=
  (direct (ShowProgress true) ;;;
   idle (ShowStatus ("Uninstalling " +++ nm +++ "...")) ;;;
   match r with
   | RunRaised err => idle (ShowStatus ("Error uninstalling " +++ nm +++ ": " +++ err))
   | RunDone rc _ stderr =>
       if Z.eqb rc 0 then
         discard_installed app_id ;;;
         idle (ShowStatus ("Successfully uninstalled " +++ nm)) ;;;
         idle LoadInstalledApps
       else idle (ShowStatus ("Failed to uninstall " +++ nm +++ ": " +++ stderr))
   end) ;;;
  (clear_operation app_id ;;;
   idle RefreshCurrentView ;;;
   idle (ShowProgress false)).

(** [uninstall_app(button, app_id, name)]; [answered_yes] is the answer to
    the confirmation dialog ([response != Gtk.ResponseType.YES] returns). As
    for [install_app_at], the direct refresh (line 1061) may raise on the
    Store tab, before the worker thread is started. *)
Definition uninstall_app_at (refresh_raised : bool) (app_id nm : string) (answered_yes : bool)
    (r : run_result) : StateM.t app_state unit :=
  if negb answered_yes then StateM.ret tt else
  set_operation app_id ("Uninstalling " +++ nm +++ "...") ;;;
  direct RefreshCurrentView ;;;
  if refresh_raised then StateM.ret tt else uninstall_worker app_id nm r.

(** [uninstall_app] when its direct refresh returns. *)
Definition uninstall_app (app_id nm : string) (answered_yes : bool) (r : run_result)
  : StateM.t app_state unit :=
  uninstall_app_at false app_id nm answered_yes r.

Definition update_worker (app_id nm : string) (r : run_result) : StateM.t app_state unit :=
  (idle (ShowStatus ("Updating " +++ nm +++ "...")) ;;;
   match r with
   | RunRaised err => idle (ShowStatus ("Error updating " +++ nm +++ ": " +++ err))
   | RunDone rc _ _ =>
       if Z.eqb rc 0 then idle (ShowStatus ("Successfully updated " +++ nm))
       else idle (ShowStatus ("No updates available for " +++ nm))
   end) ;;;
  (clear_operation app_id ;;;
   idle LoadInstalledApps).

(** [update_app(button, app_id, name)] *)
Definition update_app (app_id nm : string) (r : run_result) : StateM.t app_state unit :=
  set_operation app_id ("Updating " +++ nm +++ "...") ;;;
  update_worker app_id nm r.

(** [update_all_apps(button)]: [load_installed_apps] is posted inside the
    [try] body, after the exit-code branch; the [finally] only hides the
    progress bar. *)
Definition update_all_apps (r : run_result) : StateM.t app_state unit :=
  (idle (ShowStatus "Updating all applications...") ;;;
   idle (ShowProgress true) ;;;
   match r with
   | RunRaised err => idle (ShowStatus ("Error updating applications: " +++ err))
   | RunDone rc _ _ =>
       (if Z.eqb rc 0 then idle (ShowStatus "All applications updated successfully")
        else idle (ShowStatus "Update completed with some issues")) ;;;
       idle LoadInstalledApps
   end) ;;;
  idle (ShowProgress false).

(** [refresh_current_view()] (lines 1182-1189): on the Store tab (page 0)
    [display_apps] with the stripped search text, on the Installed tab
    [load_installed_apps]. *)
Inductive refresh_call : Type :=
  | RefreshDisplayApps (search_term : string)
  | RefreshLoadInstalled.

Definition refresh_current_view (current_page : Z) (search_text : string) : refresh_call :=
  if Z.eqb current_page 0 then RefreshDisplayApps (strip search_text) else RefreshLoadInstalled.

(** The event runs [load_installed_apps] when it is dispatched while the
    notebook shows [current_page] and the search entry holds [search_text]. *)
Definition runs_load_installed (current_page : Z) (search_text : string) (e : ui_event) : bool :=
  match e with
  | Direct c | Idle c =>
      match c with
      | LoadInstalledApps => true
      | RefreshCurrentView =>
          match refresh_current_view current_page search_text with
          | RefreshLoadInstalled => true
          | RefreshDisplayApps _ => false
          end
      | _ => false
      end
  end.

(** The events an operation appended to the UI queue. *)
Definition emitted (before after : app_state) : list ui_event :=
  drop (length (events before)) (events after).

(** The last message posted to the status sink. *)
Fixpoint last_status (evs : list ui_event) : option string :=
  match evs with
  | [] => None
  | e :: r =>
      match last_status r with
      | Some m => Some m
      | None => match e with Idle (ShowStatus m) => Some m | _ => None end
      end
  end.

Definition tab : string := String TAB EmptyString.

Definition is_object (j : json) : Prop := exists kv, j = JObj kv.

(** The dict built for one raw object, field by field (the defaults of
    lines 728-733). *)
Definition normalized_as (j : json) (d : app_dict) : Prop :=
  exists kv, j = JObj kv /\
    flatpakAppId d = dget kv "id" (dget kv "flatpakAppId" (JStr "")) /\
    name d = dget kv "name" (dget kv "id" (JStr "")) /\
    summary d = dget kv "summary" (dget kv "description" (JStr NO_DESCRIPTION)) /\
    categories d = dget kv "categories" (JArr []) /\
    icon d = dget kv "icon" (JStr "") /\
    screenshots d = dget kv "screenshots" (JArr []).

(** A small decoder for concrete runs: empty files do not decode. *)
Definition sample_decode (b : bytes) (w h : Z) : unit + string :=
  match b with [] => inr "Couldn't recognize the image file format" | _ => inl tt end.

Definition sample_dir : string := "/home/user/.cache/origami-store".

(** The status lines [install_worker] posts while reading the output. *)
Definition stream_events (nm : string) (lines : list string) : list ui_event :=
  flat_map (fun l => if str_truthy (strip l)
                     then [Idle (ShowStatus ("Installing " +++ nm +++ ": " +++ strip l))]
                     else []) lines.

(** The terminal status texts of each operation: success, failure on a
    non-zero exit, and the message of a raised exception. *)
Definition install_terminal (nm m : string) : Prop :=
  m = "Successfully installed " +++ nm \/ m = "Failed to install " +++ nm \/
  exists err, m = "Error installing " +++ nm +++ ": " +++ err.

Definition uninstall_terminal (nm m : string) : Prop :=
  m = "Successfully uninstalled " +++ nm \/
  (exists stderr, m = "Failed to uninstall " +++ nm +++ ": " +++ stderr) \/
  exists err, m = "Error uninstalling " +++ nm +++ ": " +++ err.

Definition update_terminal (nm m : string) : Prop :=
  m = "Successfully updated " +++ nm \/ m = "No updates available for " +++ nm \/
  exists err, m = "Error updating " +++ nm +++ ": " +++ err.

(* ================================================================== *)
(** ** Store view: [filter_apps], [display_apps], [add_app_card]        *)
(* ================================================================== *)

(** [s[:n] + "..." if len(s) > n else s], one character per byte of the
    model's strings (exact on ASCII text). *)
Definition truncate (n : nat) (s : string) : string :=
  if (n <? String.length s)%nat then substring 0 n s +++ "..." else s.

(** An entry of [self.available_apps]: a Python dict, as built by
    [_parse_v2_response] or by [_load_apps_via_flatpak]. *)
Definition pydict := list (string * json).

Definition app_dict_to_py (d : app_dict) : pydict :=
  [("flatpakAppId", flatpakAppId d); ("name", name d); ("summary", summary d);
   ("categories", categories d); ("icon", icon d); ("screenshots", screenshots d)].

Definition flatpak_app_to_py (a : flatpak_app) : pydict :=
  [("flatpakAppId", JStr (fp_flatpakAppId a)); ("name", JStr (fp_name a));
   ("summary", JStr (fp_summary a)); ("categories", JArr (map JStr (fp_categories a)))].

(** [x in container] for a str [x]: list membership (only an equal str is
    equal to it), substring for a str, key membership for a dict; any other
    value raises [TypeError] ([None]). On UTF-8 bytes the substring test
    agrees with Python's test on code points. *)
Definition py_in_str (x : string) (container : json) : option bool :=
  match container with
  | JArr l => Some (existsb (fun v => match v with JStr y => String.eqb x y | _ => false end) l)
  | JStr s => Some (contains x s)
  | JObj kv => Some (existsb (fun kv1 => String.eqb (fst kv1) x) kv)
  | _ => None
  end.

Section StoreView.
(** Python's [str.lower] on the (UTF-8) text of the catalog and of the search
    entry. *)
Variable str_lower : string -> string.

(** [v.lower()]: only a str has it ([AttributeError] otherwise). *)
Definition py_lower (v : json) : option string :=
  match v with JStr s => Some (str_lower s) | _ => None end.

(** Loop body of [filter_apps] for one [app]: keep it ([Some true]), skip it
    ([Some false]) or raise ([None]). *)
Definition app_passes (current_category search_term : string) (app : pydict) : option bool :=
  match (if String.eqb current_category "all" then Some true
         else py_in_str current_category (dget app "categories" (JArr []))) with
  | None => None
  | Some false => Some false
  | Some true =>
      if str_truthy search_term then
        let search_lower := str_lower search_term in
        match py_lower (dget app "name" (JStr "")),
              py_lower (dget app "summary" (JStr "")),
              py_lower (dget app "flatpakAppId" (JStr "")) with
        | Some nm, Some sm, Some app_id =>
            Some (contains search_lower nm || contains search_lower sm ||
                  contains search_lower app_id)
        | _, _, _ => None
        end
      else Some true
  end.

(** [filter_apps(search_term)] over [self.available_apps] and
    [self.current_category]. *)
Fixpoint filter_apps (available_apps : list pydict) (current_category search_term : string)
  : option (list pydict) :=
  match available_apps with
  | [] => Some []
  | app :: rest =>
      match app_passes current_category search_term app with
      | None => None
      | Some keep =>
          match filter_apps rest current_category search_term with
          | None => None
          | Some r => Some (if keep then app :: r else r)
          end
      end
  end.

(** Whether [Gtk.Label(label=v)] accepts a label [v] that is not a str
    (PyGObject's conversion of such a value to a string property); a str is
    always accepted. *)
Variable label_accepts : json -> bool.

Definition label_ok (v : json) : bool :=
  match v with JStr _ => true | _ => label_accepts v end.

(** [hash(v)] exists: lists and dicts are unhashable. *)
Definition hashable (v : json) : bool :=
  match v with JArr _ | JObj _ => false | _ => true end.

(** [len(v)] ([None]: [TypeError]); a dict from [json.loads] has one entry
    per distinct key. *)
Definition py_len (v : json) : option nat :=
  match v with
  | JStr s => Some (String.length s)
  | JArr l => Some (length l)
  | JObj kv => Some (length (nodup string_dec (map fst kv)))
  | _ => None
  end.

(** The label of line 950, [summary[:120] + "..." if len(summary) > 120 else
    summary] ([None]: [len] of a non-sized value, [list + str], or slicing a
    dict raises [TypeError]). *)
Definition card_summary_label (summary : json) : option json :=
  match py_len summary with
  | None => None
  | Some n =>
      if (120 <? n)%nat then
        match summary with JStr s => Some (JStr (truncate 120 s)) | _ => None end
      else Some summary
  end.

(** [add_app_card(app)] returns ([true]) or raises ([false]). Everything that
    can raise comes before the card is packed: the id label (line 944), the
    description label (line 950) and [app_id in self.installed_apps] (line
    955), which hashes the id; the title is an f-string, which formats any
    value. *)
Definition add_app_card_ok (app : pydict) : bool :=
  let app_id := dget app "flatpakAppId" (JStr "") in
  let summary := dget app "summary" (JStr NO_DESCRIPTION) in
  label_ok app_id &&
  match card_summary_label summary with Some d => label_ok d | None => false end &&
  hashable app_id.

(** [for app in filtered_apps[:50]: self.add_app_card(app)]: the cards
    packed, and whether the loop ended without an exception. *)
Fixpoint add_app_cards (apps : list pydict) : list pydict * bool :=
  match apps with
  | [] => ([], true)
  | a :: rest =>
      if add_app_card_ok a then
        let (cards, ok) := add_app_cards rest in (a :: cards, ok)
      else ([], false)
  end.

(** What [display_apps] leaves in [self.apps_container]: nothing (the filter
    raised), the "No applications found" label, the cards of the first 50
    apps and, past 50, the "... and N more" label; or, when [add_app_card]
    raised, the cards packed before it and no label. *)
Inductive store_view : Type :=
  | ViewRaised
  | ViewNoApps
  | ViewCards (cards : list pydict) (more : option nat)
  | ViewCardsRaised (cards : list pydict).

Definition display_apps (available_apps : list pydict) (current_category search_term : string)
  : store_view :=
  match filter_apps available_apps current_category search_term with
  | None => ViewRaised
  | Some [] => ViewNoApps
  | Some filtered_apps =>
      match add_app_cards (firstn 50 filtered_apps) with
      | (cards, true) =>
          ViewCards cards
            (if 50 <? length filtered_apps then Some (length filtered_apps - 50) else None)%nat
      | (cards, false) => ViewCardsRaised cards
      end
  end.
End StoreView.

(** The description label of a store card (120) and of an installed card (100). *)
Definition store_card_description (summary : string) : string := truncate 120 summary.
Definition installed_card_description (description : string) : string := truncate 100 description.

(* ================================================================== *)
(** ** Media loader: [load_app_media_async]                             *)
(* ================================================================== *)

(** What the worker thread of [load_app_media_async] ends with: a pixbuf
    set on the widget (through [GLib.idle_add]), nothing, or an exception
    caught by its [except] (which prints "Error loading media ..."). *)
Inductive media_result (Image : Type) : Type :=
  | MediaSet (img : Image)
  | MediaNone
  | MediaError.
Arguments MediaSet {Image}.
Arguments MediaNone {Image}.
Arguments MediaError {Image}.

Section MediaLoader.
Variable Image : Type.
Variable md5_hexdigest : string -> string.
Variable new_from_file_at_scale : bytes -> Z -> Z -> Image + string.
Variable cache_dir : string.
(** The outcome of [requests.get] for each URL. *)
Variable net : string -> get_result.

(** [self.download_image(url, size)] on an element of the URL list, which
    is a decoded JSON value: a falsy value returns [None] at [if not url];
    a truthy non-str raises [AttributeError] at [url.encode()] ([None]). *)
Definition download_url (u : json) (max_size : Z * Z)
  : StateM.t cache_state (option (option Image)) :=
  if negb (truthy u) then StateM.ret (Some None) else
  match u with
  | JStr url =>
      img <- download_image md5_hexdigest new_from_file_at_scale cache_dir url max_size (net url) ;;
      StateM.ret (Some img)
  | _ => StateM.ret None
  end.

(** [for url in urls: pixbuf = self.download_image(url, (400, 180)); if pixbuf: break] *)
Fixpoint download_first (urls : list json) (pixbuf : option Image)
  : StateM.t cache_state (option (option Image)) :=
  match urls with
  | [] => StateM.ret (Some pixbuf)
  | u :: rest =>
      r <- download_url u (400, 180)%Z ;;
      match r with
      | None => StateM.ret None
      | Some (Some img) => StateM.ret (Some (Some img))
      | Some None => download_first rest None
      end
  end.

(** [load_worker()] of [load_app_media_async(app_id, image_widget,
    screenshot)]; [detail] is the response of the Flathub API request made
    by [get_app_screenshot_urls]. *)
Definition load_worker (app_id : string) (screenshot : bool) (detail : http_result)
  : StateM.t cache_state (media_result Image) :=
  r <-
    (if screenshot then
       r <- download_first (get_app_screenshot_urls app_id detail) None ;;
       match r with
       | None => StateM.ret None
       | Some (Some img) => StateM.ret (Some (Some img))
       | Some None =>
           download_url (JStr (get_app_icon_url app_id)) (128, 128)%Z
       end
     else download_url (JStr (get_app_icon_url app_id)) (64, 64)%Z) ;;
  StateM.ret (match r with
              | None => MediaError
              | Some (Some img) => MediaSet img
              | Some None => MediaNone
              end).
End MediaLoader.

Arguments download_url {Image}.
Arguments download_first {Image}.
Arguments load_worker {Image}.

(* ================================================================== *)
(** ** Installed tab: [load_installed_apps]                             *)
(* ================================================================== *)

(** Calls [load_installed_apps] posts with [GLib.idle_add]. *)
Inductive tab_post : Type :=
  | PostClearInstalled                                    (* clear_installed_container *)
  | PostInstalledCard (app_id nm description : string)    (* add_installed_app_card *)
  | PostTabStatus (msg : string).                         (* show_status *)

Record installed_tab : Type := {
  tab_installed : gset string;    (* self.installed_apps *)
  tab_posts : list tab_post
}.

Definition tab_post_call (p : tab_post) : StateM.t installed_tab unit :=
  StateM.modify (fun s => {| tab_installed := tab_installed s; tab_posts := tab_posts s ++ [p] |}).

Definition tab_set_installed (f : gset string -> gset string) : StateM.t installed_tab unit :=
  StateM.modify (fun s => {| tab_installed := f (tab_installed s); tab_posts := tab_posts s |}).

Fixpoint add_installed_entries (es : list (string * string * string)) : StateM.t installed_tab unit :=
  match es with
  | [] => StateM.ret tt
  | (app_id, nm, description) :: rest =>
      tab_set_installed (fun s => {[app_id]} ∪ s) ;;;
      tab_post_call (PostInstalledCard app_id nm description) ;;;
      add_installed_entries rest
  end.

Section LoadInstalled.
(** [str(e)] of the [CalledProcessError] raised by [check=True] for a
    return code. *)
Variable called_process_error_str : Z -> string.

(** [load_installed_apps()]: a non-zero exit raises [CalledProcessError]
    before [self.installed_apps.clear()]. *)
Definition load_installed_apps (r : run_result) : StateM.t installed_tab unit :=
  match r with
  | RunRaised err => tab_post_call (PostTabStatus ("Error: " +++ err))
  | RunDone rc out _ =>
      if Z.eqb rc 0 then
        tab_set_installed (fun _ => ∅) ;;;
        tab_post_call PostClearInstalled ;;;
        add_installed_entries (installed_entries out)
      else tab_post_call (PostTabStatus ("Error loading installed apps: " +++
                                         called_process_error_str rc))
  end.
End LoadInstalled.

Arguments load_installed_apps : clear implicits.

(** The exit code of a finished [subprocess.run] is 0. *)
Definition exited_zero (r : run_result) : bool :=
  match r with RunDone rc _ _ => Z.eqb rc 0 | RunRaised _ => false end.

Definition entry_id (e : string * string * string) : string :=
  match e with (app_id, _, _) => app_id end.

Definition entry_card (e : string * string * string) : tab_post :=
  match e with (app_id, nm, description) => PostInstalledCard app_id nm description end.

(* ================================================================== *)
(** ** [run_app]                                                        *)
(* ================================================================== *)

(** [run_app(button, app_id)]; [launch] is [None] when [subprocess.Popen]
    started the process and the message of its exception otherwise. *)
Definition run_app (app_id : string) (launch : option string) : StateM.t app_state unit :=
  match launch with
  | None => direct (ShowStatus ("Launched " +++ app_id))
  | Some err => direct (ShowStatus ("Error launching " +++ app_id +++ ": " +++ err))
  end.

(* ================================================================== *)
(** ** Search debounce: [on_search_changed]                             *)
(* ================================================================== *)

Record search_state : Type := {
  search_timeout : option nat;          (* self.search_timeout, if set *)
  pending : list (nat * string);        (* live GLib timeouts: id, term *)
  next_source : nat;                    (* the id GLib gives next *)
  displayed : list string;              (* display_apps(search_term) calls *)
  stale_removals : nat                  (* source_remove of an id no longer live *)
}.

(** [GLib.source_remove(id)]: a live source is removed; an id that already
    fired is not found (GLib reports a critical warning). *)
Definition source_remove (id : nat) (st : search_state) : search_state :=
  if existsb (fun p => Nat.eqb (fst p) id) (pending st) then
    {| search_timeout := search_timeout st;
       pending := List.filter (fun p => negb (Nat.eqb (fst p) id)) (pending st);
       next_source := next_source st; displayed := displayed st;
       stale_removals := stale_removals st |}
  else
    {| search_timeout := search_timeout st; pending := pending st;
       next_source := next_source st; displayed := displayed st;
       stale_removals := S (stale_removals st) |}.

(** [on_search_changed(entry)] with [entry.get_text()] = [text]. *)
Definition on_search_changed (text : string) (st : search_state) : search_state :=
  let search_term := strip text in
  let st1 := match search_timeout st with
             | Some id => source_remove id st
             | None => st
             end in
  {| search_timeout := Some (next_source st1);
     pending := pending st1 ++ [(next_source st1, search_term)];
     next_source := S (next_source st1);
     displayed := displayed st1;
     stale_removals := stale_removals st1 |}.

(** The main loop dispatches the oldest live timeout; its callback returns
    [None] (falsy), so the source is then removed. *)
Definition timeout_fires (st : search_state) : search_state :=
  match pending st with
  | [] => st
  | (_, term) :: rest =>
      {| search_timeout := search_timeout st; pending := rest;
         next_source := next_source st; displayed := displayed st ++ [term];
         stale_removals := stale_removals st |}
  end.

Inductive search_event : Type :=
  | SearchChanged (text : string)
  | TimeoutFires.

Definition search_step (st : search_state) (e : search_event) : search_state :=
  match e with
  | SearchChanged text => on_search_changed text st
  | TimeoutFires => timeout_fires st
  end.

Definition run_search (evs : list search_event) (st : search_state) : search_state :=
  fold_left search_step evs st.

(** After [__init__]: no [search_timeout] attribute, no timeout. *)
Definition search_init : search_state :=
  {| search_timeout := None; pending := []; next_source := 1%nat;
     displayed := []; stale_removals := 0%nat |}.

(* ================================================================== *)
(** ** Category buttons: [on_category_changed]                          *)
(* ================================================================== *)

Record category_state : Type := {
  category_buttons : list (string * bool);   (* category -> button active *)
  current_category : string;
  category_displays : list (string * string)  (* display_apps: category, term *)
}.

Definition category_ids : list string :=
  ["all"; "AudioVideo"; "Development"; "Education"; "Game"; "Graphics";
   "Network"; "Office"; "System"; "Utility"].

(** After [setup_store_tab]: "all" active, [current_category] = "all". *)
Definition category_init : category_state :=
  {| category_buttons := map (fun c => (c, String.eqb c "all")) category_ids;
     current_category := "all"; category_displays := [] |}.

Definition button_active (bs : list (string * bool)) (c : string) : bool :=
  existsb (fun p => String.eqb (fst p) c && snd p) bs.

(** [on_category_changed(button, category)], [search_text] being the text
    of the search entry. The [set_active(False)] calls re-enter the handler
    for the other buttons, which return at once as they are no longer
    active. *)
Definition on_category_changed (category search_text : string) (st : category_state)
  : category_state :=
  if negb (button_active (category_buttons st) category) then st else
  {| category_buttons :=
       map (fun p => if String.eqb (fst p) category then p else (fst p, false))
           (category_buttons st);
     current_category := category;
     category_displays := category_displays st ++ [(category, strip search_text)] |}.

(** A click on a toggle button flips it, then emits "toggled". *)
Definition click_category (category search_text : string) (st : category_state)
  : category_state :=
  on_category_changed category search_text
    {| category_buttons :=
         map (fun p => if String.eqb (fst p) category then (fst p, negb (snd p)) else p)
             (category_buttons st);
       current_category := current_category st;
       category_displays := category_displays st |}.

Definition run_clicks (clicks : list (string * string)) (st : category_state) : category_state :=
  fold_left (fun s c => click_category (fst c) (snd c) s) clicks st.

(* ================================================================== *)
(** ** Start-up checks: [run]                                           *)
(* ================================================================== *)

Inductive py_exc : Type :=
  | FileNotFoundError
  | OtherError.

(** [subprocess.run(..., check=True)]: output, [CalledProcessError], or
    another exception. *)
Inductive checked_run : Type :=
  | CheckOk (stdout : string)
  | CheckFailed (returncode : Z)
  | CheckRaised (exc : py_exc).

Inductive dialog : Type :=
  | DialogFlatpakNotFound
  | DialogFlathubMissing
  | DialogFlathubAdded
  | DialogAddFailed.

Inductive startup_outcome : Type :=
  | StartReturned                 (* run() returned before the window *)
  | StartRaised                   (* an exception left run() *)
  | StartWindow.                  (* window shown, Gtk.main() *)

(** [run()]: the dialogs shown and how it ends, from the outcomes of
    [flatpak --version], [flatpak remotes], the answer to the question and
    [flatpak remote-add]. *)
Definition run_startup (version remotes : checked_run) (answer_yes : bool)
    (remote_add : checked_run) : list dialog * startup_outcome :=
  match version with
  | CheckFailed _ | CheckRaised FileNotFoundError => ([DialogFlatpakNotFound], StartReturned)
  | CheckRaised OtherError => ([], StartRaised)
  | CheckOk _ =>
      match remotes with
      | CheckFailed _ => ([], StartWindow)               (* pass: continue anyway *)
      | CheckRaised _ => ([], StartRaised)
      | CheckOk out =>
          if contains "flathub" out then ([], StartWindow)
          else if negb answer_yes then ([DialogFlathubMissing], StartReturned)
          else match remote_add with
               | CheckOk _ => ([DialogFlathubMissing; DialogFlathubAdded], StartWindow)
               | CheckFailed _ => ([DialogFlathubMissing; DialogAddFailed], StartReturned)
               | CheckRaised _ => ([DialogFlathubMissing], StartRaised)
               end
      end
  end.

(* ================================================================== *)
(** ** Catalog loading: [load_flathub_apps]                             *)
(* ================================================================== *)

(** Calls [load_flathub_apps] posts with [GLib.idle_add]. *)
Inductive store_post : Type :=
  | PostShowLoading (show : bool)
  | PostStoreStatus (msg : string)
  | PostDisplayApps.

(** The [try] block around the API: [raise_for_status] raises for a
    4xx/5xx code, [response.json()] for a body that is not JSON, and
    [_parse_v2_response] may raise. *)
Definition api_apps (resp : http_result) : option (list app_dict) :=
  match resp with
  | HttpResponse status (Some data) =>
      if ((400 <=? status) && (status <? 600))%Z then None else _parse_v2_response data
  | _ => None
  end.

(** [load_flathub_apps()]: the new [self.available_apps] and the posts. *)
Definition load_flathub_apps (resp : http_result) (fallback : run_result)
  : list pydict * list store_post :=
  let start := [PostShowLoading true; PostStoreStatus "Loading applications from Flathub..."] in
  let finish := [PostShowLoading false; PostDisplayApps] in
  match api_apps resp with
  | Some apps =>
      let available_apps := map app_dict_to_py apps in
      (available_apps,
       (start ++ [PostStoreStatus ("Loaded " +++ pretty (length available_apps) +++
                                   " applications from API")] ++ finish)%list)
  | None =>
      let available_apps := map flatpak_app_to_py (fst (_load_apps_via_flatpak fallback)) in
      (available_apps,
       (start ++ [PostStoreStatus "API unavailable, using local flatpak search...";
                  PostStoreStatus ("Loaded " +++ pretty (length available_apps) +++
                                   " applications via flatpak search")] ++ finish)%list)
  end.

(* ================================================================== *)
(** * Lemmas                                                           *)
(* ================================================================== *)

Lemma is_blank_lstrip s : is_blank (lstrip s) = is_blank s.
Proof.
  induction s as [|c r IH]; [reflexivity|]. simpl.
  destruct (py_isspace c) eqn:E; simpl; [exact IH | rewrite E; reflexivity].
Qed.

Lemma rstrip_empty_iff s : rstrip s = EmptyString <-> is_blank s = true.
Proof.
  induction s as [|c r IH]; simpl; [tauto|].
  destruct (rstrip r) as [|c' r'] eqn:Er.
  - destruct (py_isspace c); simpl; intuition discriminate.
  - split; [discriminate|]. intros H. apply andb_prop in H as [_ H].
    apply IH in H. discriminate.
Qed.

Lemma strip_truthy s : str_truthy (strip s) = negb (is_blank s).
Proof.
  unfold strip. rewrite <- is_blank_lstrip.
  destruct (rstrip (lstrip s)) eqn:E.
  - apply rstrip_empty_iff in E. rewrite E. reflexivity.
  - destruct (is_blank (lstrip s)) eqn:B; [|reflexivity].
    apply rstrip_empty_iff in B. congruence.
Qed.

Lemma is_blank_app a b : is_blank (a +++ b) = is_blank a && is_blank b.
Proof.
  induction a as [|c r IH]; simpl; [reflexivity|]. rewrite IH, andb_assoc. reflexivity.
Qed.

Lemma has_char_app ch a b : has_char ch (a +++ b) = has_char ch a || has_char ch b.
Proof.
  induction a as [|c r IH]; simpl; [reflexivity|]. rewrite IH, orb_assoc. reflexivity.
Qed.

Lemma split_on_no_sep sep a : has_char sep a = false -> split_on sep a = [a].
Proof.
  induction a as [|c r IH]; simpl; [reflexivity|].
  intros H. apply orb_false_iff in H as [Hc Hr]. rewrite Hc, (IH Hr). reflexivity.
Qed.

Lemma split_on_app_sep sep a b :
  has_char sep a = false -> split_on sep (a +++ String sep b) = a :: split_on sep b.
Proof.
  induction a as [|c r IH]; simpl; intros H.
  - rewrite Ascii.eqb_refl. reflexivity.
  - apply orb_false_iff in H as [Hc Hr]. rewrite Hc, (IH Hr). reflexivity.
Qed.

Example guess_firefox : _guess_category_from_id "org.mozilla.firefox" = ["Network"].
Proof. reflexivity. Qed.
Example guess_gimp : _guess_category_from_id "org.gimp.GIMP" = ["Graphics"].
Proof. reflexivity. Qed.
Example split_ex : split_on TAB "a	b	" = ["a"; "b"; ""].
Proof. reflexivity. Qed.
Example strip_ex : strip "  ab c
" = "ab c".
Proof. reflexivity. Qed.

Lemma exec_seq {S A B} (m : StateM.t S A) (k : StateM.t S B) (st : S) :
  StateM.exec (m ;;; k) st = StateM.exec k (StateM.exec m st).
Proof. unfold StateM.exec, StateM.bind. destruct (m st). reflexivity. Qed.

Lemma exec_stream nm lines st :
  StateM.exec (stream_install_lines nm lines) st
  = {| current_operations := current_operations st;
       installed_apps := installed_apps st;
       events := events st ++ stream_events nm lines |}.
Proof.
  revert st. induction lines as [|l r IH]; intros st.
  - destruct st; simpl. rewrite app_nil_r. reflexivity.
  - simpl stream_install_lines. rewrite exec_seq, IH.
    unfold stream_events. simpl flat_map.
    destruct (str_truthy (strip l)); simpl; rewrite <- ?app_assoc; reflexivity.
Qed.

Lemma stream_events_status nm lines e :
  In e (stream_events nm lines) -> exists m, e = Idle (ShowStatus m).
Proof.
  unfold stream_events. intros H. apply in_flat_map in H as [l [_ Hl]].
  destruct (str_truthy (strip l)); simpl in Hl; [|contradiction].
  destruct Hl as [<-|[]]. eauto.
Qed.

Lemma last_status_app l1 l2 :
  last_status (l1 ++ l2)
  = match last_status l2 with Some m => Some m | None => last_status l1 end.
Proof.
  induction l1 as [|e r IH]; simpl.
  - destruct (last_status l2); reflexivity.
  - rewrite IH. destruct (last_status l2); reflexivity.
Qed.

Lemma emitted_app st l :
  forall st', events st' = (events st ++ l)%list -> emitted st st' = l.
Proof. intros st' H. unfold emitted. rewrite H. apply drop_app_length. Qed.

Lemma stream_no_load nm lines :
  In (Idle LoadInstalledApps) (stream_events nm lines) -> False.
Proof. intros H. apply stream_events_status in H as [m Hm]. discriminate. Qed.

Ltac no_load :=
  let H := fresh "H" in
  intros H; exfalso; rewrite ?in_app_iff in H; simpl in H;
  repeat match goal with
         | H : _ \/ _ |- _ => destruct H as [H|H]
         end;
  solve [discriminate | contradiction | eapply stream_no_load; eassumption].

Ltac has_load := rewrite ?in_app_iff; simpl; tauto.

Lemma existsb_stream_events f nm lines :
  (forall m, f (Idle (ShowStatus m)) = false) ->
  existsb f (stream_events nm lines) = false.
Proof.
  intros Hf. apply not_true_iff_false. intros H.
  apply existsb_exists in H as [e [He Hfe]].
  apply stream_events_status in He as [m ->]. congruence.
Qed.

Ltac reload_calc :=
  rewrite ?existsb_app, ?existsb_stream_events by reflexivity;
  cbn [existsb runs_load_installed orb]; unfold refresh_current_view;
  let Ep := fresh "Ep" in
  destruct (Z.eqb _ 0) eqn:Ep; [apply Z.eqb_eq in Ep | apply Z.eqb_neq in Ep];
  cbn [orb negb].

Ltac run_state :=
  repeat rewrite exec_seq; rewrite ?exec_stream;
  cbn [StateM.exec StateM.modify StateM.ret post idle direct set_operation
       clear_operation add_installed discard_installed current_operations
       installed_apps events snd].

(* ================================================================== *)
(** * Claims                                                           *)
(* ================================================================== *)

(** C6: [_guess_category_from_id] maps [org.mozilla.firefox] to
    [["Network"]], [org.gimp.GIMP] to [["Graphics"]], an id whose lowercase
    form contains no keyword to [["Other"]], and in general returns the
    category of the first keyword rule that matches. *)
Theorem guess_category_first_rule :
  _guess_category_from_id "org.mozilla.firefox" = ["Network"] /\
  _guess_category_from_id "org.gimp.GIMP" = ["Graphics"] /\
  (forall app_id,
      existsb (fun r => any_in (fst r) (lower app_id)) category_rules = false ->
      _guess_category_from_id app_id = ["Other"]) /\
  (forall app_id, _guess_category_from_id app_id = spec_guess_category app_id).
Proof.
  assert (Hgen : forall app_id, _guess_category_from_id app_id = spec_guess_category app_id).
  { intros app_id. unfold _guess_category_from_id, spec_guess_category.
    cbn [find category_rules fst snd].
    repeat (destruct (any_in _ _); [reflexivity|]). reflexivity. }
  split; [reflexivity|]. split; [reflexivity|]. split; [|exact Hgen].
  intros app_id H. rewrite Hgen. unfold spec_guess_category.
  destruct (find _ category_rules) as [r|] eqn:E; [|reflexivity].
  apply find_some in E as [Hin Hm].
  assert (existsb (fun r => any_in (fst r) (lower app_id)) category_rules = true)
    by (apply existsb_exists; eauto).
  congruence.
Qed.

Lemma guess_category_first_rule_witness :
  existsb (fun r => any_in (fst r) (lower "org.example.Notes")) category_rules = false /\
  _guess_category_from_id "org.example.Notes" = ["Other"].
Proof.
  split; [reflexivity|].
  apply (proj1 (proj2 (proj2 guess_category_first_rule)) "org.example.Notes").
  reflexivity.
Defined.

(** C10: parsing a bare JSON list and parsing [{"apps": list}] give the same
    result (the same dicts, or the same exception). *)
Theorem parse_v2_list_dict_agree (l : list json) :
  _parse_v2_response (JArr l) = _parse_v2_response (JObj [("apps", JArr l)]).
Proof. reflexivity. Qed.

(** C4 (code bug): a raw record that carries its id only under
    "flatpakAppId" (no "id" and no "name" member) is normalized with that id
    as [flatpakAppId] but with the empty string as [name]: the name falls
    back to the raw "id" member only (line 729), not to the id the same dict
    receives (line 728), whereas [add_app_card] (line 889) and
    [_load_apps_via_flatpak] (line 762) default the name to the app id. *)
Theorem parse_v2_name_skips_flatpakAppId (kv : list (string * json)) (i : string) :
  assoc_last "id" kv = None -> assoc_last "name" kv = None ->
  assoc_last "flatpakAppId" kv = Some (JStr i) ->
  exists d, _parse_v2_response (JArr [JObj kv]) = Some [d] /\
    flatpakAppId d = JStr i /\ name d = JStr "".
Proof.
  intros Hid Hname Hfp. eexists. split; [reflexivity|].
  unfold dget. cbn [flatpakAppId name]. rewrite Hid, Hname, Hfp. split; reflexivity.
Qed.

Lemma parse_v2_name_skips_flatpakAppId_witness :
  exists d, _parse_v2_response (JArr [JObj [("flatpakAppId", JStr "org.example.App")]])
              = Some [d] /\
    flatpakAppId d = JStr "org.example.App" /\ name d = JStr "".
Proof.
  exact (parse_v2_name_skips_flatpakAppId [("flatpakAppId", JStr "org.example.App")]
           "org.example.App" eq_refl eq_refl eq_refl).
Defined.

(** C3 (counterexample): when the detail request raises,
    [get_app_screenshot_urls] returns the icon URL, not an empty list. *)
Lemma screenshot_urls_failure_counterexample :
  get_app_screenshot_urls "org.example.App" (HttpRaised "timed out")
  = [JStr "https://flathub.org/repo/appstream/x86_64/icons/128x128/org.example.App.png"] /\
  get_app_screenshot_urls "org.example.App" (HttpRaised "timed out") <> [].
Proof. split; [reflexivity | discriminate]. Qed.

(** C3 (amended): on a 200 response whose JSON object has a non-empty
    [screenshots] list starting with an object, the result is the one-element
    list holding that entry's [imgDesktopUrl] (default [""]). On every
    failure the result is the one-element list holding the package's icon
    URL: a transport error, a non-200 status, a body that is not JSON, a
    JSON body that is not an object, and an object whose [screenshots] value
    is anything but a list starting with an object (absent, [null], empty,
    a str, a number, a dict, or a list whose first entry is not an object). *)
Theorem screenshot_urls_first_or_icon :
  (forall app_id kv skv rest,
      dget kv "screenshots" (JArr []) = JArr (JObj skv :: rest) ->
      get_app_screenshot_urls app_id (HttpResponse 200 (Some (JObj kv)))
      = [dget skv "imgDesktopUrl" (JStr "")]) /\
  (forall app_id err,
      get_app_screenshot_urls app_id (HttpRaised err) = [JStr (get_app_icon_url app_id)]) /\
  (forall app_id status body,
      status <> 200%Z ->
      get_app_screenshot_urls app_id (HttpResponse status body)
      = [JStr (get_app_icon_url app_id)]) /\
  (forall app_id,
      get_app_screenshot_urls app_id (HttpResponse 200 None)
      = [JStr (get_app_icon_url app_id)]) /\
  (forall app_id data,
      (forall kv, data <> JObj kv) ->
      get_app_screenshot_urls app_id (HttpResponse 200 (Some data))
      = [JStr (get_app_icon_url app_id)]) /\
  (forall app_id kv,
      (forall skv rest, dget kv "screenshots" (JArr []) <> JArr (JObj skv :: rest)) ->
      get_app_screenshot_urls app_id (HttpResponse 200 (Some (JObj kv)))
      = [JStr (get_app_icon_url app_id)]).
Proof.
  split; [|split; [|split; [|split; [|split]]]].
  - intros app_id kv skv rest H. unfold get_app_screenshot_urls. simpl. rewrite H. reflexivity.
  - reflexivity.
  - intros app_id status body H. unfold get_app_screenshot_urls.
    destruct body; [|reflexivity]. apply Z.eqb_neq in H. rewrite H. reflexivity.
  - reflexivity.
  - intros app_id data H. unfold get_app_screenshot_urls. simpl.
    destruct data as [| | | | |kv]; try reflexivity. exfalso. exact (H kv eq_refl).
  - intros app_id kv H. unfold get_app_screenshot_urls. simpl.
    destruct (dget kv "screenshots" (JArr [])) as [| | | |[|[| | | | |skv] rest]|];
      try reflexivity; try (destruct (truthy _); reflexivity).
    exfalso. exact (H skv rest eq_refl).
Qed.

Lemma screenshot_urls_first_or_icon_witness :
  (dget [("screenshots", JArr [JObj [("imgDesktopUrl", JStr "https://example.org/s.png")]])]
       "screenshots" (JArr [])
   = JArr [JObj [("imgDesktopUrl", JStr "https://example.org/s.png")]] /\
   get_app_screenshot_urls "org.example.App"
     (HttpResponse 200 (Some (JObj [("screenshots",
         JArr [JObj [("imgDesktopUrl", JStr "https://example.org/s.png")]])])))
   = [JStr "https://example.org/s.png"]) /\
  get_app_screenshot_urls "org.example.App" (HttpResponse 404 None)
  = [JStr (get_app_icon_url "org.example.App")] /\
  get_app_screenshot_urls "org.example.App" (HttpResponse 200 (Some (JArr [])))
  = [JStr (get_app_icon_url "org.example.App")] /\
  get_app_screenshot_urls "org.example.App"
    (HttpResponse 200 (Some (JObj [("screenshots", JArr [JStr "s.png"])])))
  = [JStr (get_app_icon_url "org.example.App")].
Proof.
  destruct screenshot_urls_first_or_icon as (H1 & _ & H3 & _ & H5 & H6).
  split; [split; [reflexivity|]|split; [|split]].
  - apply (H1 "org.example.App"
             [("screenshots", JArr [JObj [("imgDesktopUrl", JStr "https://example.org/s.png")]])]
             [("imgDesktopUrl", JStr "https://example.org/s.png")] []).
    reflexivity.
  - apply H3. discriminate.
  - apply H5. intros kv Hkv. discriminate.
  - apply H6. intros skv rest Hs. discriminate.
Defined.

(** C5 (code bug): when [subprocess.run] for [remote-ls] raises (for
    instance the [flatpak] binary is missing), [_load_apps_via_flatpak]
    returns an empty list: the seed list that the same call returns for a
    run that yields no entries is skipped. *)
Theorem load_apps_via_flatpak_raised_empty :
  fst (_load_apps_via_flatpak (RunRaised "[Errno 2] No such file or directory: 'flatpak'")) = [] /\
  fst (_load_apps_via_flatpak (RunDone 0 "" "")) = popular_apps.
Proof. split; reflexivity. Qed.

(** The completed-run path of [_load_apps_via_flatpak] is never empty. *)
Lemma load_apps_via_flatpak_done_nonempty rc out err :
  fst (_load_apps_via_flatpak (RunDone rc out err)) <> [].
Proof.
  simpl. destruct (if Z.eqb rc 0 then _ else []) as [|a l]; simpl; discriminate.
Qed.

Lemma split_join_on sep cols :
  cols <> [] -> Forall (fun c => has_char sep c = false) cols ->
  split_on sep (join_on sep cols) = cols.
Proof.
  intros Hne Hf. induction Hf as [|c rest Hc Hf IH]; [congruence|].
  destruct rest as [|c' rest'].
  - simpl. apply split_on_no_sep, Hc.
  - change (join_on sep (c :: c' :: rest')) with (c +++ String sep (join_on sep (c' :: rest'))).
    rewrite (split_on_app_sep _ _ _ Hc), IH by discriminate. reflexivity.
Qed.

(** C9 (code bug): on every non-blank line of [flatpak list] output the
    name is the second tab-separated column as it is, never the id: a line
    of two or more columns gives (first column, second column, third column
    or "No description available"), so an empty name column gives the name
    [""]; a line without a tab gives no entry at all. The [else app_id] of
    line 615 is unreachable under the guard [len(parts) >= 2]. *)
Theorem installed_line_name_column :
  (forall cols,
      (2 <= length cols)%nat -> Forall (fun c => has_char TAB c = false) cols ->
      is_blank (join_on TAB cols) = false ->
      installed_line_entry (join_on TAB cols)
      = [(nth 0 cols "", nth 1 cols "", nth 2 cols NO_DESCRIPTION)]) /\
  (forall line, has_char TAB line = false -> installed_line_entry line = []).
Proof.
  split.
  - intros cols Hlen Hf Hb. unfold installed_line_entry.
    rewrite strip_truthy, Hb. cbn [negb].
    rewrite split_join_on by (try assumption; intros ->; simpl in Hlen; lia).
    destruct cols as [|c0 [|c1 [|c2 rest]]]; simpl in Hlen; try lia; reflexivity.
  - intros line H. unfold installed_line_entry. rewrite (split_on_no_sep _ _ H).
    destruct (str_truthy _); reflexivity.
Qed.

Lemma installed_line_name_column_witness :
  installed_line_entry (join_on TAB ["org.example.App"; ""; "A test app"])
  = [("org.example.App", "", "A test app")].
Proof. apply (proj1 installed_line_name_column); [simpl; lia | repeat constructor | reflexivity]. Defined.

(** C1 (counterexample): the cache directory is kept on disk across runs
    and may hold a file under the empty URL's name ([md5("")]), left there by
    something other than [download_image]. For the empty URL the guard [if
    not url] returns [None] at once, so that corrupt file is neither removed
    nor refetched. *)
Lemma download_image_empty_url_counterexample :
  let st := {| cache_files := {[cache_path (fun u => u) sample_dir "" := []]};
               cache_log := [] |} in
  let run := download_image (fun u => u) sample_decode sample_dir "" (400, 200)%Z
               (GetOk [Byte.x01]) in
  sample_decode [] 400 200 = inr "Couldn't recognize the image file format" /\
  StateM.eval run st = None /\
  cache_files (StateM.exec run st) !! cache_path (fun u => u) sample_dir "" = Some [] /\
  cache_log (StateM.exec run st) = [].
Proof. repeat split. Qed.

(** C1 (amended): for every non-empty URL whose cache file exists but does
    not decode, one call of [download_image] removes the file, then issues
    the GET in the same call, returns the decoding of the freshly downloaded
    body (never the corrupt data), and leaves the downloaded body as the
    cache file. For the empty URL, in every state, the call returns [None]
    and changes nothing: no file is removed or written and no request is
    made. *)
Theorem download_image_corrupt_refetch {Image : Type} (md5 : string -> string)
    (dec : bytes -> Z -> Z -> Image + string) (dir : string) (max_size : Z * Z)
    (resp : get_result) :
  (forall url st b e,
    str_truthy url = true ->
    cache_files st !! cache_path md5 dir url = Some b ->
    dec b (fst max_size) (snd max_size) = @inr Image string e ->
    let p := cache_path md5 dir url in
    let run := download_image md5 dec dir url max_size resp in
    StateM.eval run st
      = match resp with
        | GetOk body => decoded (dec body (fst max_size) (snd max_size))
        | _ => None
        end /\
    (exists tail, cache_log (StateM.exec run st)
                  = (cache_log st ++ EvRemove p :: EvGet url :: tail)%list) /\
    cache_files (StateM.exec run st) = files_after_fetch p (delete p (cache_files st)) resp) /\
  (forall st,
    StateM.eval (download_image md5 dec dir "" max_size resp) st = None /\
    StateM.exec (download_image md5 dec dir "" max_size resp) st = st).
Proof.
  split; [|intros st; split; reflexivity].
  intros url st b e Hurl Hfile Hdec p run. subst p run.
  unfold download_image, StateM.eval, StateM.exec, StateM.bind, StateM.gets.
  rewrite Hurl. simpl. rewrite Hfile, Hdec. simpl.
  destruct resp as [err|w err|body]; simpl.
  - split; [reflexivity|]. split; [|reflexivity].
    eexists. rewrite <- !app_assoc. reflexivity.
  - split; [reflexivity|]. split; [|reflexivity].
    eexists. rewrite <- !app_assoc. reflexivity.
  - destruct (dec body (fst max_size) (snd max_size)); simpl;
      (split; [reflexivity|]; split; [|reflexivity]);
      eexists; rewrite <- !app_assoc; reflexivity.
Qed.

Lemma download_image_corrupt_refetch_witness :
  let st := {| cache_files := {[cache_path (fun u => u) sample_dir "https://example.org/a.png" := []]};
               cache_log := [] |} in
  let run := download_image (fun u => u) sample_decode sample_dir "https://example.org/a.png"
               (400, 200)%Z (GetOk [Byte.x89]) in
  StateM.eval run st = Some tt /\
  (exists tail, cache_log (StateM.exec run st)
     = ([] ++ EvRemove (cache_path (fun u => u) sample_dir "https://example.org/a.png") ::
        EvGet "https://example.org/a.png" :: tail)%list) /\
  cache_files (StateM.exec run st)
  = files_after_fetch (cache_path (fun u => u) sample_dir "https://example.org/a.png")
      (delete (cache_path (fun u => u) sample_dir "https://example.org/a.png")
         {[cache_path (fun u => u) sample_dir "https://example.org/a.png" := []]})
      (GetOk [Byte.x89]).
Proof.
  exact (proj1 (download_image_corrupt_refetch (fun u => u) sample_decode sample_dir
                  (400, 200)%Z (GetOk [Byte.x89]))
           "https://example.org/a.png"
           {| cache_files := {[cache_path (fun u => u) sample_dir "https://example.org/a.png" := []]};
              cache_log := [] |}
           [] "Couldn't recognize the image file format" eq_refl
           eq_refl eq_refl).
Defined.

(** C2 (counterexample): when the downloaded body does not decode,
    [download_image] returns [None] but the body stays written in the cache,
    so the cache state changed. *)
Lemma download_image_error_cache_counterexample :
  let url := "https://example.org/b.png" in
  let st := {| cache_files := ∅; cache_log := [] |} in
  let run := download_image (fun u => u) sample_decode sample_dir url (400, 200)%Z (GetOk []) in
  StateM.eval run st = None /\
  cache_files st !! cache_path (fun u => u) sample_dir url = None /\
  cache_files (StateM.exec run st) !! cache_path (fun u => u) sample_dir url = Some [].
Proof. repeat split. Qed.

(** C2 (amended): for every non-empty URL that takes the miss path (no cache
    file, or one that does not decode) and every network or decode error,
    [download_image] returns [None] and its last effect is the printed error
    message; the cache then holds what the code wrote: the corrupt file is
    removed, a request or status error writes nothing, a broken stream leaves
    the partial file and an undecodable body leaves the downloaded file. *)
Theorem download_image_miss_error {Image : Type} (md5 : string -> string)
    (dec : bytes -> Z -> Z -> Image + string) (dir url : string) (max_size : Z * Z)
    (resp : get_result) (st : cache_state) :
  str_truthy url = true ->
  (forall b, cache_files st !! cache_path md5 dir url = Some b ->
     exists e, dec b (fst max_size) (snd max_size) = @inr Image string e) ->
  fetch_fails dec max_size resp ->
  let p := cache_path md5 dir url in
  let run := download_image md5 dec dir url max_size resp in
  StateM.eval run st = None /\
  (exists pre msg, cache_log (StateM.exec run st) = (cache_log st ++ pre ++ [EvPrint msg])%list) /\
  cache_files (StateM.exec run st) = files_after_fetch p (delete p (cache_files st)) resp.
Proof.
  intros Hurl Hmiss Hfail p run. subst p run.
  unfold download_image, StateM.eval, StateM.exec, StateM.bind, StateM.gets.
  rewrite Hurl. simpl.
  destruct (cache_files st !! cache_path md5 dir url) as [b|] eqn:Hfile.
  - destruct (Hmiss b eq_refl) as [e He]. rewrite He. simpl.
    destruct resp as [err|w err|body]; simpl;
      [| | destruct Hfail as [e' He']; rewrite He'; simpl];
      (split; [reflexivity|]; split; [|reflexivity]);
      exists [EvRemove (cache_path md5 dir url); EvGet url];
      eexists; rewrite <- !app_assoc; reflexivity.
  - simpl. rewrite (delete_id _ _ Hfile).
    destruct resp as [err|w err|body]; simpl;
      [| | destruct Hfail as [e' He']; rewrite He'; simpl];
      (split; [reflexivity|]; split; [|reflexivity]);
      exists [EvGet url];
      eexists; rewrite <- !app_assoc; reflexivity.
Qed.

Lemma download_image_miss_error_witness :
  let url := "https://example.org/b.png" in
  let st := {| cache_files := ∅; cache_log := [] |} in
  let run := download_image (fun u => u) sample_decode sample_dir url (400, 200)%Z
               (GetFailed "404 Client Error: Not Found") in
  StateM.eval run st = None /\
  (exists pre msg, cache_log (StateM.exec run st) = ([] ++ pre ++ [EvPrint msg])%list) /\
  cache_files (StateM.exec run st)
  = files_after_fetch (cache_path (fun u => u) sample_dir url)
      (delete (cache_path (fun u => u) sample_dir url) ∅) (GetFailed "404 Client Error: Not Found").
Proof.
  apply (download_image_miss_error (fun u => u) sample_decode sample_dir
           "https://example.org/b.png" (400, 200)%Z (GetFailed "404 Client Error: Not Found")
           {| cache_files := ∅; cache_log := [] |}).
  - reflexivity.
  - intros b Hb. discriminate Hb.
  - exact I.
Defined.

(** C7: install, uninstall (once confirmed) and update, on every outcome
    (zero exit, non-zero exit, or an exception from the subprocess call),
    end with no OperationState entry for the package id, and the last
    message they post to the status sink is the operation's success or
    failure text. *)
Theorem operation_cleanup_terminal_status :
  (forall st app_id nm r,
     let st' := StateM.exec (install_app app_id nm r) st in
     current_operations st' !! app_id = None /\
     exists m, last_status (emitted st st') = Some m /\ install_terminal nm m) /\
  (forall st app_id nm r,
     let st' := StateM.exec (uninstall_app app_id nm true r) st in
     current_operations st' !! app_id = None /\
     exists m, last_status (emitted st st') = Some m /\ uninstall_terminal nm m) /\
  (forall st app_id nm r,
     let st' := StateM.exec (update_app app_id nm r) st in
     current_operations st' !! app_id = None /\
     exists m, last_status (emitted st st') = Some m /\ update_terminal nm m).
Proof.
  split; [|split]; intros st app_id nm r st'; subst st'.
  - unfold install_app, install_app_at, install_worker. cbv iota. destruct r as [lines err|lines rc].
    + run_state. split; [apply lookup_delete_eq|].
      erewrite emitted_app by (rewrite <- !app_assoc; reflexivity).
      rewrite !last_status_app. simpl. eexists. split; [reflexivity|].
      unfold install_terminal. eauto.
    + run_state. destruct (Z.eqb rc 0); run_state;
        (split; [apply lookup_delete_eq|]);
        erewrite emitted_app by (rewrite <- !app_assoc; reflexivity);
        rewrite !last_status_app; simpl; eexists; (split; [reflexivity|]);
        unfold install_terminal; eauto.
  - unfold uninstall_app, uninstall_app_at, uninstall_worker. simpl negb. cbv iota.
    destruct r as [err|rc out stderr]; run_state;
      [|destruct (Z.eqb rc 0); run_state];
      (split; [apply lookup_delete_eq|]);
      erewrite emitted_app by (rewrite <- !app_assoc; reflexivity);
      rewrite !last_status_app; simpl; eexists; (split; [reflexivity|]);
      unfold uninstall_terminal; eauto.
  - unfold update_app, update_worker.
    destruct r as [err|rc out stderr]; run_state;
      [|destruct (Z.eqb rc 0); run_state];
      (split; [apply lookup_delete_eq|]);
      erewrite emitted_app by (rewrite <- !app_assoc; reflexivity);
      rewrite !last_status_app; simpl; eexists; (split; [reflexivity|]);
      unfold update_terminal; eauto.
Qed.

(** C8 (counterexample): when the [flatpak update] call of updateAll
    raises (the executable is missing), nothing it posts runs
    [load_installed_apps], whichever tab is current: the reload is inside
    the [try] body and the [finally] only hides the progress bar. *)
Lemma update_all_raised_no_reload_counterexample :
  let st := {| current_operations := ∅; installed_apps := ∅; events := [] |} in
  let evs := emitted st (StateM.exec (update_all_apps
               (RunRaised "[Errno 2] No such file or directory: 'flatpak'")) st) in
  existsb (runs_load_installed 0 "") evs = false /\
  existsb (runs_load_installed 1 "") evs = false.
Proof. vm_compute. split; reflexivity. Qed.

(** C8 (amended): with the notebook on page [page] and the search text
    [text] while the events run, update posts [load_installed_apps] on
    every outcome. updateAll runs it exactly when the process exits,
    whatever the code, and not when the call raises. install and uninstall
    post [load_installed_apps] themselves exactly on exit 0; on every
    outcome they also call [refresh_current_view], once directly and once
    from the [finally] block. So they run [load_installed_apps] exactly on
    exit 0 or when the Installed tab (page <> 0) is current; and on the
    Store tab, when the direct refresh's [display_apps] raises, not at all. *)
Theorem operation_reload_policy :
  (forall page text st app_id nm r,
     let evs := emitted st (StateM.exec (install_app app_id nm r) st) in
     In (Direct RefreshCurrentView) evs /\ In (Idle RefreshCurrentView) evs /\
     (In (Idle LoadInstalledApps) evs <-> exists lines, r = PopenExited lines 0) /\
     (existsb (runs_load_installed page text) evs = true
      <-> (exists lines, r = PopenExited lines 0) \/ page <> 0%Z)) /\
  (forall text st app_id nm r,
     existsb (runs_load_installed 0 text)
       (emitted st (StateM.exec (install_app_at true app_id nm r) st)) = false) /\
  (forall page text st app_id nm r,
     let evs := emitted st (StateM.exec (uninstall_app app_id nm true r) st) in
     In (Direct RefreshCurrentView) evs /\ In (Idle RefreshCurrentView) evs /\
     (In (Idle LoadInstalledApps) evs <-> exists out stderr, r = RunDone 0 out stderr) /\
     (existsb (runs_load_installed page text) evs = true
      <-> (exists out stderr, r = RunDone 0 out stderr) \/ page <> 0%Z)) /\
  (forall text st app_id nm r,
     existsb (runs_load_installed 0 text)
       (emitted st (StateM.exec (uninstall_app_at true app_id nm true r) st)) = false) /\
  (forall st app_id nm r,
     In (Idle LoadInstalledApps) (emitted st (StateM.exec (update_app app_id nm r) st))) /\
  (forall page text st r,
     existsb (runs_load_installed page text)
       (emitted st (StateM.exec (update_all_apps r) st)) = true
     <-> exists rc out stderr, r = RunDone rc out stderr).
Proof.
  split; [|split; [|split; [|split; [|split]]]].
  - intros page text st app_id nm r evs. subst evs.
    unfold install_app, install_app_at, install_worker. cbv iota.
    destruct r as [lines err|lines rc].
    + run_state. erewrite emitted_app by (rewrite <- ?app_assoc; reflexivity).
      split; [has_load|]. split; [has_load|]. split.
      * split; [no_load | intros [? H]; discriminate].
      * reload_calc.
        -- split; [intros H; discriminate | intros [[? H]|H]; [discriminate|congruence]].
        -- split; [intros _; right; lia | reflexivity].
    + run_state. destruct (Z.eqb rc 0) eqn:E; run_state;
        erewrite emitted_app by (rewrite <- ?app_assoc; reflexivity);
        (split; [has_load|]); (split; [has_load|]).
      * apply Z.eqb_eq in E as ->. split; [split; [eauto | intros _; has_load]|].
        reload_calc; split; eauto.
      * apply Z.eqb_neq in E. split; [split; [no_load | intros [? H]; congruence]|].
        reload_calc.
        -- split; [intros H; discriminate | intros [[? H]|H]; congruence].
        -- split; [intros _; right; lia | reflexivity].
  - intros text st app_id nm r. unfold install_app_at. cbv iota.
    run_state. erewrite emitted_app by (rewrite <- ?app_assoc; reflexivity).
    reflexivity.
  - intros page text st app_id nm r evs. subst evs.
    unfold uninstall_app, uninstall_app_at, uninstall_worker. simpl negb. cbv iota.
    destruct r as [err|rc out stderr].
    + run_state. erewrite emitted_app by (rewrite <- ?app_assoc; reflexivity).
      split; [has_load|]. split; [has_load|]. split.
      * split; [no_load | intros (? & ? & H); discriminate].
      * reload_calc.
        -- split; [intros H; discriminate | intros [(? & ? & H)|H]; [discriminate|congruence]].
        -- split; [intros _; right; lia | reflexivity].
    + run_state. destruct (Z.eqb rc 0) eqn:E; run_state;
        erewrite emitted_app by (rewrite <- ?app_assoc; reflexivity);
        (split; [has_load|]); (split; [has_load|]).
      * apply Z.eqb_eq in E as ->. split; [split; [eauto | intros _; has_load]|].
        reload_calc; split; eauto.
      * apply Z.eqb_neq in E. split; [split; [no_load | intros (? & ? & H); congruence]|].
        reload_calc.
        -- split; [intros H; discriminate | intros [(? & ? & H)|H]; congruence].
        -- split; [intros _; right; lia | reflexivity].
  - intros text st app_id nm r. unfold uninstall_app_at. simpl negb. cbv iota.
    run_state. erewrite emitted_app by (rewrite <- ?app_assoc; reflexivity).
    reflexivity.
  - intros st app_id nm r. unfold update_app, update_worker.
    destruct r as [err|rc out stderr]; run_state;
      [|destruct (Z.eqb rc 0); run_state];
      erewrite emitted_app by (rewrite <- ?app_assoc; reflexivity); has_load.
  - intros page text st r. unfold update_all_apps.
    destruct r as [err|rc out stderr].
    + run_state. erewrite emitted_app by (rewrite <- ?app_assoc; reflexivity).
      simpl. split; [discriminate | intros (? & ? & ? & H); discriminate].
    + run_state. destruct (Z.eqb rc 0); run_state;
        erewrite emitted_app by (rewrite <- ?app_assoc; reflexivity);
        simpl; (split; [intros _; eauto | reflexivity]).
Qed.

Lemma operation_reload_policy_witness :
  let st := {| current_operations := ∅; installed_apps := ∅; events := [] |} in
  existsb (runs_load_installed 1 "")
     (emitted st (StateM.exec (install_app "org.gimp.GIMP" "GIMP" (PopenExited [] 1)) st))
  = true.
Proof.
  destruct operation_reload_policy as [Hinst _].
  destruct (Hinst 1%Z "" {| current_operations := ∅; installed_apps := ∅; events := [] |}
              "org.gimp.GIMP" "GIMP" (PopenExited [] 1)) as (_ & _ & _ & Hr).
  apply Hr. right. lia.
Defined.

(* ================================================================== *)
(** * Further properties of the code                                   *)
(* ================================================================== *)

Lemma lower_char_idem c : lower_char (lower_char c) = lower_char c.
Proof. destruct c as [[] [] [] [] [] [] [] []]; reflexivity. Qed.

Lemma lower_idem s : lower (lower s) = lower s.
Proof. induction s as [|c r IH]; simpl; [reflexivity|]. rewrite lower_char_idem, IH. reflexivity. Qed.

Lemma str_truthy_lower s : str_truthy (lower s) = str_truthy s.
Proof. destruct s; reflexivity. Qed.

Lemma filter_apps_in (str_lower : string -> string) apps c t r a :
  filter_apps str_lower apps c t = Some r -> In a r ->
  app_passes str_lower c t a = Some true /\ In a apps.
Proof.
  revert r. induction apps as [|x xs IH]; simpl; intros r H Ha.
  - injection H as <-. destruct Ha.
  - destruct (app_passes str_lower c t x) as [keep|] eqn:E; [|discriminate].
    destruct (filter_apps str_lower xs c t) as [r'|] eqn:E'; [|discriminate].
    injection H as <-. destruct keep.
    + destruct Ha as [<-|Ha]; [auto|]. destruct (IH r' eq_refl Ha). auto.
    + destruct (IH r' eq_refl Ha). auto.
Qed.

Lemma filter_apps_none (str_lower : string -> string) apps c t a :
  In a apps -> app_passes str_lower c t a = None -> filter_apps str_lower apps c t = None.
Proof.
  induction apps as [|x xs IH]; simpl; [contradiction|].
  intros [<-|Ha] Hp.
  - rewrite Hp. reflexivity.
  - rewrite (IH Ha Hp). destruct (app_passes str_lower c t x); reflexivity.
Qed.

Lemma add_app_cards_true (label_accepts : json -> bool) l cards :
  add_app_cards label_accepts l = (cards, true) -> cards = l.
Proof.
  revert cards. induction l as [|a r IH]; simpl; intros cards H.
  - injection H as <-. reflexivity.
  - destruct (add_app_card_ok label_accepts a); [|discriminate].
    destruct (add_app_cards label_accepts r) as [cs ok] eqn:E.
    injection H as <- ->. f_equal. apply IH. reflexivity.
Qed.

Lemma add_app_cards_stop (label_accepts : json -> bool) pre a post :
  Forall (fun x => add_app_card_ok label_accepts x = true) pre ->
  add_app_card_ok label_accepts a = false ->
  add_app_cards label_accepts (pre ++ a :: post) = (pre, false).
Proof.
  intros Hpre Ha. induction Hpre as [|x xs Hx _ IH]; simpl.
  - rewrite Ha. reflexivity.
  - rewrite Hx. simpl in IH. rewrite IH. reflexivity.
Qed.

(** Filtering under the "all" category with an empty search term keeps
    every app, in order, whatever its fields: no field is read. *)
Theorem filter_apps_all_empty_identity (str_lower : string -> string) (apps : list pydict) :
  filter_apps str_lower apps "all" "" = Some apps.
Proof. induction apps as [|a r IH]; simpl; [reflexivity|]. rewrite IH. reflexivity. Qed.

(** The filtered list is a sub-sequence of the catalog: apps are only
    dropped, never reordered or duplicated. *)
Theorem filter_apps_sublist (str_lower : string -> string) (apps r : list pydict) (c t : string) :
  filter_apps str_lower apps c t = Some r -> sublist r apps.
Proof.
  revert r. induction apps as [|x xs IH]; simpl; intros r H.
  - injection H as <-. constructor.
  - destruct (app_passes str_lower c t x) as [keep|]; [|discriminate].
    destruct (filter_apps str_lower xs c t) as [r'|]; [|discriminate].
    injection H as <-. destruct keep.
    + apply sublist_skip, IH; reflexivity.
    + apply sublist_cons, IH; reflexivity.
Qed.

Lemma filter_apps_sublist_witness :
  filter_apps lower [[("name", JStr "GIMP")]; [("name", JStr "VLC")]] "all" "gi"
    = Some [[("name", JStr "GIMP")]] /\
  sublist [[("name", JStr "GIMP")]] [[("name", JStr "GIMP")]; [("name", JStr "VLC")]].
Proof.
  split; [reflexivity|].
  apply (filter_apps_sublist lower _ _ "all" "gi"). reflexivity.
Defined.

(** Under a category other than "all", every app kept has a "categories"
    key whose value contains the category ([in]); an app without that key
    is never shown. *)
Theorem filter_apps_category_sound (str_lower : string -> string) (apps r : list pydict)
    (c t : string) (a : pydict) :
  c <> "all" -> filter_apps str_lower apps c t = Some r -> In a r ->
  assoc_last "categories" a <> None /\
  py_in_str c (dget a "categories" (JArr [])) = Some true.
Proof.
  intros Hc H Ha. apply (filter_apps_in _ _ _ _ _ _ H) in Ha as [Hp _].
  unfold app_passes in Hp. apply String.eqb_neq in Hc. rewrite Hc in Hp.
  destruct (py_in_str c (dget a "categories" (JArr []))) as [[]|] eqn:E;
    try discriminate.
  split; [|reflexivity].
  intros Hn. unfold dget in E. rewrite Hn in E. discriminate.
Qed.

Lemma filter_apps_category_sound_witness :
  "Game" <> "all" /\
  filter_apps lower [[("categories", JArr [JStr "Game"])]; [("name", JStr "x")]] "Game" ""
    = Some [[("categories", JArr [JStr "Game"])]] /\
  In [("categories", JArr [JStr "Game"])] [[("categories", JArr [JStr "Game"])]] /\
  (assoc_last "categories" [("categories", JArr [JStr "Game"])] <> None /\
   py_in_str "Game" (dget [("categories", JArr [JStr "Game"])] "categories" (JArr []))
     = Some true).
Proof.
  assert (Hc : "Game" <> "all") by discriminate.
  assert (Hf : filter_apps lower [[("categories", JArr [JStr "Game"])]; [("name", JStr "x")]]
                 "Game" "" = Some [[("categories", JArr [JStr "Game"])]]) by reflexivity.
  assert (Hi : In [("categories", JArr [JStr "Game"])] [[("categories", JArr [JStr "Game"])]])
    by (left; reflexivity).
  split; [exact Hc|]. split; [exact Hf|]. split; [exact Hi|].
  exact (filter_apps_category_sound lower _ _ "Game" "" _ Hc Hf Hi).
Defined.

(** With a non-empty search term, every app kept has a name, summary or
    id (a str) whose lowercase form contains the lowercased term. *)
Theorem filter_apps_search_sound (str_lower : string -> string) (apps r : list pydict)
    (c t : string) (a : pydict) :
  str_truthy t = true -> filter_apps str_lower apps c t = Some r -> In a r ->
  exists key s, In key ["name"; "summary"; "flatpakAppId"] /\
    dget a key (JStr "") = JStr s /\ contains (str_lower t) (str_lower s) = true.
Proof.
  intros Ht H Ha. apply (filter_apps_in _ _ _ _ _ _ H) in Ha as [Hp _].
  unfold app_passes in Hp.
  destruct (if String.eqb c "all" then Some true
            else py_in_str c (dget a "categories" (JArr []))) as [[]|]; try discriminate.
  rewrite Ht in Hp.
  destruct (dget a "name" (JStr "")) as [| | |sn| |] eqn:En; try discriminate;
  destruct (dget a "summary" (JStr "")) as [| | |ss| |] eqn:Es; try discriminate;
  destruct (dget a "flatpakAppId" (JStr "")) as [| | |si| |] eqn:Ei; try discriminate.
  simpl in Hp. injection Hp as Hp.
  apply orb_true_iff in Hp as [Hp|Hp]; [apply orb_true_iff in Hp as [Hp|Hp]|].
  - exists "name", sn. simpl. auto.
  - exists "summary", ss. simpl. auto.
  - exists "flatpakAppId", si. simpl. auto 6.
Qed.

Lemma filter_apps_search_sound_witness :
  str_truthy "GIM" = true /\
  filter_apps lower [[("name", JStr "GIMP")]; [("name", JStr "VLC")]] "all" "GIM"
    = Some [[("name", JStr "GIMP")]] /\
  In [("name", JStr "GIMP")] [[("name", JStr "GIMP")]] /\
  exists key s, In key ["name"; "summary"; "flatpakAppId"] /\
    dget [("name", JStr "GIMP")] key (JStr "") = JStr s /\
    contains (lower "GIM") (lower s) = true.
Proof.
  assert (Ht : str_truthy "GIM" = true) by reflexivity.
  assert (Hf : filter_apps lower [[("name", JStr "GIMP")]; [("name", JStr "VLC")]] "all" "GIM"
               = Some [[("name", JStr "GIMP")]]) by reflexivity.
  assert (Hi : In [("name", JStr "GIMP")] [[("name", JStr "GIMP")]]) by (left; reflexivity).
  split; [exact Ht|]. split; [exact Hf|]. split; [exact Hi|].
  exact (filter_apps_search_sound lower _ _ "all" "GIM" _ Ht Hf Hi).
Defined.

(** The search is case-insensitive: a term and its lowercase form select
    the same apps (and raise on the same catalogs). This rests on two facts
    of Python's [str.lower] about the term: lowering it again changes
    nothing, and it is empty exactly when the term is. *)
Theorem filter_apps_case_insensitive (str_lower : string -> string) (apps : list pydict)
    (c t : string) :
  str_lower (str_lower t) = str_lower t ->
  str_truthy (str_lower t) = str_truthy t ->
  filter_apps str_lower apps c (str_lower t) = filter_apps str_lower apps c t.
Proof.
  intros Hidem Htruthy.
  assert (Hp : forall a, app_passes str_lower c (str_lower t) a = app_passes str_lower c t a).
  { intros a. unfold app_passes. rewrite Htruthy, Hidem. reflexivity. }
  induction apps as [|a r IH]; simpl; [reflexivity|]. rewrite Hp, IH. reflexivity.
Qed.

Lemma filter_apps_case_insensitive_witness :
  filter_apps lower [[("name", JStr "GIMP")]; [("name", JStr "VLC")]] "all" (lower "GiMp")
  = filter_apps lower [[("name", JStr "GIMP")]; [("name", JStr "VLC")]] "all" "GiMp".
Proof.
  apply filter_apps_case_insensitive; [apply lower_idem | apply str_truthy_lower].
Defined.

(** An app of the catalog that passes the category test and whose "name"
    member is present but not a str (for instance [null]) makes every
    non-empty search raise, wherever it sits in the catalog: [display_apps]
    then shows nothing at all, not even "No applications found". *)
Theorem display_apps_nonstring_name_raises (str_lower : string -> string)
    (label_accepts : json -> bool) (apps : list pydict) (a : pydict) (c t : string) :
  In a apps ->
  (c = "all" \/ py_in_str c (dget a "categories" (JArr [])) = Some true) ->
  (forall s, dget a "name" (JStr "") <> JStr s) ->
  str_truthy t = true ->
  filter_apps str_lower apps c t = None /\
  display_apps str_lower label_accepts apps c t = ViewRaised.
Proof.
  intros Ha Hc Hs Ht.
  assert (Hp : app_passes str_lower c t a = None).
  { unfold app_passes.
    replace (if String.eqb c "all" then Some true
             else py_in_str c (dget a "categories" (JArr []))) with (Some true)
      by (destruct (String.eqb c "all") eqn:E; [reflexivity|];
          destruct Hc as [->|Hc]; [discriminate | symmetry; exact Hc]).
    rewrite Ht. destruct (dget a "name" (JStr "")); try reflexivity.
    exfalso. eapply Hs. reflexivity. }
  assert (Hf : filter_apps str_lower apps c t = None) by exact (filter_apps_none _ _ _ _ _ Ha Hp).
  split; [exact Hf|]. unfold display_apps. rewrite Hf. reflexivity.
Qed.

Lemma display_apps_nonstring_name_raises_witness :
  filter_apps lower [[("name", JStr "GIMP"); ("categories", JArr [JStr "Graphics"])];
                     [("name", JNull); ("categories", JArr [JStr "Graphics"])]]
    "Graphics" "x" = None /\
  display_apps lower (fun _ => false)
    [[("name", JStr "GIMP"); ("categories", JArr [JStr "Graphics"])];
     [("name", JNull); ("categories", JArr [JStr "Graphics"])]] "Graphics" "x" = ViewRaised.
Proof.
  apply (display_apps_nonstring_name_raises lower (fun _ => false) _
           [("name", JNull); ("categories", JArr [JStr "Graphics"])] "Graphics" "x").
  - right. left. reflexivity.
  - right. reflexivity.
  - intros s Hs. cbv in Hs. discriminate.
  - reflexivity.
Defined.

(** The catalog built by the fallback loader (strings and a list of
    strings in every entry) never makes the filter raise. *)
Theorem filter_apps_fallback_total (str_lower : string -> string) (apps : list flatpak_app)
    (c t : string) :
  exists r, filter_apps str_lower (map flatpak_app_to_py apps) c t = Some r.
Proof.
  induction apps as [|a xs [r IH]]; simpl; [eauto|]. rewrite IH.
  unfold app_passes. unfold flatpak_app_to_py, dget; simpl.
  destruct (String.eqb c "all"), (str_truthy t); simpl;
    try (destruct (existsb _ _)); try (destruct (contains _ _ || _)); eauto.
Qed.

(** When [display_apps] shows its cards and label to the end, the cards are
    the first filtered apps, at most 50 and at least one; together with the
    "... and N more" count they account for every filtered app, and the
    count appears only once 50 cards are shown. *)
Theorem display_apps_accounting (str_lower : string -> string) (label_accepts : json -> bool)
    (apps : list pydict) (c t : string) (cards : list pydict) (more : option nat) :
  display_apps str_lower label_accepts apps c t = ViewCards cards more ->
  exists r, filter_apps str_lower apps c t = Some r /\ prefix cards r /\
    cards <> [] /\ (length cards <= 50)%nat /\
    (length cards + default 0 more = length r)%nat /\
    (more <> None -> length cards = 50%nat).
Proof.
  unfold display_apps. destruct (filter_apps str_lower apps c t) as [r|]; [|discriminate].
  destruct r as [|x xs] eqn:Er; [discriminate|]. rewrite <- Er.
  destruct (add_app_cards label_accepts (firstn 50 r)) as [cs ok] eqn:Ec.
  destruct ok; [|discriminate].
  apply add_app_cards_true in Ec as ->.
  intros H. injection H as <- <-. exists r. split; [reflexivity|].
  split; [apply prefix_take|]. split; [subst r; simpl; discriminate|].
  rewrite length_take.
  destruct (Nat.ltb_spec 50 (length r)); cbn [default]; unfold id.
  - split; [lia|]. split; [lia|]. intros _. lia.
  - split; [lia|]. split; [lia|]. intros Hn. exfalso. apply Hn. reflexivity.
Qed.

Lemma display_apps_accounting_witness :
  display_apps lower (fun _ => false) [[("name", JStr "a")]; [("name", JStr "b")]] "all" ""
    = ViewCards [[("name", JStr "a")]; [("name", JStr "b")]] None /\
  exists r, filter_apps lower [[("name", JStr "a")]; [("name", JStr "b")]] "all" "" = Some r /\
    prefix [[("name", JStr "a")]; [("name", JStr "b")]] r /\
    [[("name", JStr "a")]; [("name", JStr "b")]] <> [] /\
    (length [[("name", JStr "a")]; [("name", JStr "b")]] <= 50)%nat /\
    (length [[("name", JStr "a")]; [("name", JStr "b")]] + default 0 None = length r)%nat /\
    (@None nat <> None -> length [[("name", JStr "a")]; [("name", JStr "b")]] = 50%nat).
Proof.
  assert (H : display_apps lower (fun _ => false) [[("name", JStr "a")]; [("name", JStr "b")]]
                "all" "" = ViewCards [[("name", JStr "a")]; [("name", JStr "b")]] None)
    by reflexivity.
  split; [exact H|]. exact (display_apps_accounting lower _ _ "all" "" _ None H).
Defined.

(** When [add_app_card] raises on one of the first 50 filtered apps, the
    loop stops there: the store shows the cards of the apps before it and
    neither the rest nor the "... and N more" label. It raises, among other
    cases, when the summary has no [len] (null, a number or a boolean). *)
Theorem display_apps_card_raises :
  (forall (str_lower : string -> string) (label_accepts : json -> bool)
          (apps r : list pydict) (c t : string) (pre : list pydict) (a : pydict)
          (post : list pydict),
     filter_apps str_lower apps c t = Some r ->
     firstn 50 r = (pre ++ a :: post)%list ->
     Forall (fun x => add_app_card_ok label_accepts x = true) pre ->
     add_app_card_ok label_accepts a = false ->
     display_apps str_lower label_accepts apps c t = ViewCardsRaised pre) /\
  (forall (label_accepts : json -> bool) (app : pydict),
     py_len (dget app "summary" (JStr NO_DESCRIPTION)) = None ->
     add_app_card_ok label_accepts app = false).
Proof.
  split.
  - intros str_lower label_accepts apps r c t pre a post Hf Hfirst Hpre Ha.
    unfold display_apps. rewrite Hf.
    destruct r as [|x xs]; [destruct pre; discriminate|].
    rewrite Hfirst, add_app_cards_stop by assumption. reflexivity.
  - intros label_accepts app Hlen. unfold add_app_card_ok, card_summary_label.
    rewrite Hlen. rewrite andb_false_r. reflexivity.
Qed.

Lemma display_apps_card_raises_witness :
  display_apps lower (fun _ => false)
    ([("flatpakAppId", JStr "org.example.App"); ("summary", JNull)]
       :: repeat [("flatpakAppId", JStr "org.gimp.GIMP")] 59) "all" ""
  = ViewCardsRaised [].
Proof.
  destruct display_apps_card_raises as [Hraise Hlen].
  apply (Hraise lower (fun _ => false) _
           ([("flatpakAppId", JStr "org.example.App"); ("summary", JNull)]
              :: repeat [("flatpakAppId", JStr "org.gimp.GIMP")] 59)
           "all" "" [] [("flatpakAppId", JStr "org.example.App"); ("summary", JNull)]
           (repeat [("flatpakAppId", JStr "org.gimp.GIMP")] 49)).
  - vm_compute. reflexivity.
  - vm_compute. reflexivity.
  - constructor.
  - apply Hlen. reflexivity.
Defined.

(** For every list of raw JSON objects, [_parse_v2_response] succeeds and
    yields one dict per object with all six keys set: [flatpakAppId] =
    [id], else [flatpakAppId], else [""]; [name] = [name], else the raw
    [id], else [""]; [summary] = [summary], else [description], else "No
    description available"; [categories] default [[]]; [icon] default
    [""]; [screenshots] default [[]]. *)
Theorem parse_v2_total (l : list json) :
  Forall is_object l ->
  exists ds, _parse_v2_response (JArr l) = Some ds /\ Forall2 normalized_as l ds.
Proof.
  intros Hl. simpl. induction Hl as [|j l [kv ->] _ [ds [Hds Hf]]].
  - exists []. split; [reflexivity | constructor].
  - simpl. rewrite Hds. eexists. split; [reflexivity|].
    constructor; [|exact Hf]. exists kv. repeat split.
Qed.

Lemma parse_v2_total_witness :
  exists ds, _parse_v2_response (JArr [JObj [("id", JStr "org.videolan.VLC")]]) = Some ds /\
             Forall2 normalized_as [JObj [("id", JStr "org.videolan.VLC")]] ds.
Proof.
  apply parse_v2_total. constructor; [eexists; reflexivity | constructor].
Defined.

Lemma slen_app a b : String.length (a +++ b) = (String.length a + String.length b)%nat.
Proof. induction a as [|c r IH]; simpl; [reflexivity|]. rewrite IH. reflexivity. Qed.

Lemma substring_0_le m s : (String.length (substring 0 m s) <= m)%nat.
Proof.
  revert m. induction s as [|c r IH]; intros [|m]; simpl; try lia.
  specialize (IH m). lia.
Qed.

Lemma substring_0_full m s : (String.length s <= m)%nat -> substring 0 m s = s.
Proof.
  revert m. induction s as [|c r IH]; intros [|m] H; simpl in *; try lia; try reflexivity.
  rewrite IH by lia. reflexivity.
Qed.

Lemma sappend_empty_r s : s +++ "" = s.
Proof. induction s as [|c r IH]; [reflexivity|]. change (String c (r +++ "") = String c r). f_equal. exact IH. Qed.

Lemma starts_with_app p x : starts_with p (p +++ x) = true.
Proof. induction p as [|c r IH]; simpl; [reflexivity|]. rewrite Ascii.eqb_refl. exact IH. Qed.

(** A description label is at most [n] characters plus the "..." marker,
    always begins with the first [n] characters of the text, and a text of
    at most [n] characters is shown unchanged. *)
Theorem truncate_bounded (n : nat) (s : string) :
  (String.length (truncate n s) <= n + 3)%nat /\
  starts_with (substring 0 n s) (truncate n s) = true /\
  ((String.length s <= n)%nat -> truncate n s = s).
Proof.
  unfold truncate. destruct (Nat.ltb_spec n (String.length s)) as [H|H].
  - split; [rewrite slen_app; pose proof (substring_0_le n s); simpl; lia|].
    split; [apply starts_with_app|]. lia.
  - rewrite substring_0_full by exact H.
    split; [lia|]. split; [|reflexivity].
    rewrite <- (sappend_empty_r s) at 2. apply starts_with_app.
Qed.

Lemma truncate_bounded_witness : truncate 100 "Simple text editor" = "Simple text editor".
Proof. apply (proj2 (proj2 (truncate_bounded 100 "Simple text editor"))). simpl. lia. Defined.

(** [run_app] touches neither the operation map nor the installed set: its
    only effect is one direct status message (launched or error), and it
    never asks for a reload. *)
Theorem run_app_status_only (st : app_state) (app_id : string) (launch : option string) :
  let st' := StateM.exec (run_app app_id launch) st in
  current_operations st' = current_operations st /\
  installed_apps st' = installed_apps st /\
  exists m, emitted st st' = [Direct (ShowStatus m)].
Proof.
  intros st'. subst st'. unfold run_app.
  destruct launch; cbn [StateM.exec StateM.modify direct post current_operations
                        installed_apps events snd];
    (split; [reflexivity|]; split; [reflexivity|]);
    eexists; apply emitted_app; reflexivity.
Qed.

Lemma exec_add_installed_entries es st :
  StateM.exec (add_installed_entries es) st
  = {| tab_installed := tab_installed (StateM.exec (add_installed_entries es) st);
       tab_posts := (tab_posts st ++ map entry_card es)%list |} /\
  (forall x, x ∈ tab_installed (StateM.exec (add_installed_entries es) st)
             <-> x ∈ tab_installed st \/ In x (map entry_id es)).
Proof.
  revert st. induction es as [|[[i n] d] r IH]; intros st.
  - destruct st. cbn. rewrite app_nil_r. split; [reflexivity|]. tauto.
  - simpl add_installed_entries. rewrite !exec_seq.
    destruct (IH (StateM.exec (tab_post_call (PostInstalledCard i n d))
                   (StateM.exec (tab_set_installed (fun s => {[i]} ∪ s)) st)))
      as [H1 H2].
    split.
    + rewrite H1 at 1. cbn. rewrite <- app_assoc. reflexivity.
    + intros x. rewrite H2. cbn. set_solver.
Qed.

(** A successful [flatpak list] replaces the installed set by exactly the
    ids of the parsed lines (ids from before are dropped), and posts the
    clearing of the tab followed by one card per line, in order. *)
Theorem load_installed_apps_success (cpe : Z -> string) (st : installed_tab)
    (out err : string) :
  let st' := StateM.exec (load_installed_apps cpe (RunDone 0 out err)) st in
  (forall x, x ∈ tab_installed st' <-> In x (map entry_id (installed_entries out))) /\
  tab_posts st' = (tab_posts st ++ PostClearInstalled :: map entry_card (installed_entries out))%list.
Proof.
  intros st'. subst st'. unfold load_installed_apps. simpl Z.eqb. cbv iota.
  rewrite !exec_seq.
  destruct (exec_add_installed_entries (installed_entries out)
              (StateM.exec (tab_post_call PostClearInstalled)
                 (StateM.exec (tab_set_installed (fun _ => ∅)) st))) as [H1 H2].
  split.
  - intros x. rewrite H2. cbn. set_solver.
  - rewrite H1. cbn. rewrite <- app_assoc. reflexivity.
Qed.

(** When [flatpak list] fails (non-zero exit or an exception), the
    installed set is left as it was and one error status is posted; the
    tab is not cleared. *)
Theorem load_installed_apps_failure (cpe : Z -> string) (st : installed_tab) (r : run_result) :
  exited_zero r = false ->
  let st' := StateM.exec (load_installed_apps cpe r) st in
  tab_installed st' = tab_installed st /\
  exists m, tab_posts st' = (tab_posts st ++ [PostTabStatus m])%list.
Proof.
  intros H st'. subst st'. unfold load_installed_apps.
  destruct r as [e|rc out err]; simpl in H; [|rewrite H]; cbn; eauto.
Qed.

Lemma load_installed_apps_failure_witness :
  let st := {| tab_installed := {["org.gimp.GIMP"]}; tab_posts := [] |} in
  let st' := StateM.exec (load_installed_apps (fun _ => "exit status 1")
                            (RunDone 1 "" "error")) st in
  tab_installed st' = tab_installed st /\
  exists m, tab_posts st' = (tab_posts st ++ [PostTabStatus m])%list.
Proof.
  exact (load_installed_apps_failure (fun _ => "exit status 1")
           {| tab_installed := {["org.gimp.GIMP"]}; tab_posts := [] |}
           (RunDone 1 "" "error") eq_refl).
Defined.

(** Debounce state: at most one live timeout, and it is the one recorded
    in [self.search_timeout]. *)
Definition debounce_inv (st : search_state) : Prop :=
  pending st = [] \/ exists id t, pending st = [(id, t)] /\ search_timeout st = Some id.

Lemma debounce_inv_step st e : debounce_inv st -> debounce_inv (search_step st e).
Proof.
  intros [H|(id & t & H & Ht)]; destruct e as [text|]; simpl.
  - right. unfold on_search_changed.
    destruct (search_timeout st) as [id|]; [unfold source_remove; rewrite H|]; simpl;
      rewrite ?H; do 2 eexists; split; reflexivity.
  - left. unfold timeout_fires. rewrite H. exact H.
  - right. unfold on_search_changed. rewrite Ht. unfold source_remove. rewrite H. simpl.
    rewrite Nat.eqb_refl. simpl. do 2 eexists; split; reflexivity.
  - left. unfold timeout_fires. rewrite H. reflexivity.
Qed.

Lemma debounce_inv_run evs st : debounce_inv st -> debounce_inv (run_search evs st).
Proof.
  revert st. induction evs as [|e r IH]; intros st H; simpl; [exact H|].
  apply IH, debounce_inv_step, H.
Qed.

(** Whatever the sequence of keystrokes and timer dispatches, at most one
    search timeout is live, and it is the one [search_timeout] names. *)
Theorem debounce_single_pending (evs : list search_event) :
  let st := run_search evs search_init in
  (length (pending st) <= 1)%nat /\
  (forall id t, pending st = [(id, t)] -> search_timeout st = Some id).
Proof.
  intros st. assert (H : debounce_inv st) by (apply debounce_inv_run; left; reflexivity).
  destruct H as [H|(id & t & H & Ht)]; rewrite H; simpl.
  - split; [lia|]. discriminate.
  - split; [lia|]. intros id' t' E. injection E as <- <-. exact Ht.
Qed.

Lemma debounce_keys st texts :
  debounce_inv st -> texts <> [] ->
  exists id, pending (run_search (map SearchChanged texts) st) = [(id, strip (List.last texts ""))] /\
  displayed (run_search (map SearchChanged texts) st) = displayed st.
Proof.
  revert st. induction texts as [|x r IH]; intros st Hinv Hne; [congruence|].
  simpl map. simpl run_search.
  assert (Hs : pending (on_search_changed x st) = [(next_source (match search_timeout st with
                  | Some id => source_remove id st | None => st end), strip x)] /\
               displayed (on_search_changed x st) = displayed st).
  { unfold on_search_changed.
    destruct Hinv as [H|(id & t & H & Ht)].
    - destruct (search_timeout st); [unfold source_remove; rewrite H|]; simpl; rewrite ?H; auto.
    - rewrite Ht. unfold source_remove. rewrite H. simpl. rewrite Nat.eqb_refl. simpl. auto. }
  destruct r as [|y r'].
  - simpl. destruct Hs as [Hp Hd]. eauto.
  - destruct (IH (on_search_changed x st)) as (id & Hp & Hd).
    + apply (debounce_inv_step st (SearchChanged x)), Hinv.
    + discriminate.
    + exists id. split; [exact Hp|]. rewrite Hd. apply Hs.
Qed.

(** A burst of keystrokes followed by the timer leads to exactly one
    [display_apps] call, with the stripped text of the last keystroke. *)
Theorem debounce_last_term (st : search_state) (texts : list string) :
  debounce_inv st -> texts <> [] ->
  displayed (run_search (map SearchChanged texts ++ [TimeoutFires]) st)
  = (displayed st ++ [strip (List.last texts "")])%list.
Proof.
  intros Hinv Hne. unfold run_search. rewrite fold_left_app. fold (run_search (map SearchChanged texts) st).
  destruct (debounce_keys st texts Hinv Hne) as (id & Hp & Hd).
  simpl. unfold timeout_fires. rewrite Hp. simpl. rewrite Hd. reflexivity.
Qed.

Lemma debounce_last_term_witness :
  displayed (run_search (map SearchChanged ["g"; "gi"; " gimp "] ++ [TimeoutFires]) search_init)
  = ([] ++ [strip (List.last ["g"; "gi"; " gimp "] "")])%list.
Proof.
  apply (debounce_last_term search_init ["g"; "gi"; " gimp "]);
    [left; reflexivity | discriminate].
Defined.

(** A keystroke after the timeout has fired still passes the recorded id
    to [GLib.source_remove]: the attribute stays set once created, so the
    removal targets a source that no longer exists. *)
Theorem search_changed_stale_removal (st : search_state) (id : nat) (text : string) :
  pending st = [] -> search_timeout st = Some id ->
  stale_removals (on_search_changed text st) = S (stale_removals st).
Proof.
  intros Hp Ht. unfold on_search_changed. rewrite Ht. unfold source_remove. rewrite Hp.
  reflexivity.
Qed.

Lemma search_changed_stale_removal_witness :
  let st := run_search [SearchChanged "gimp"; TimeoutFires] search_init in
  stale_removals (on_search_changed "vlc" st) = S (stale_removals st).
Proof.
  apply (search_changed_stale_removal _ 1%nat "vlc"); reflexivity.
Defined.

(** Category state: an active button is the current category. *)
Definition category_inv (st : category_state) : Prop :=
  forall c, button_active (category_buttons st) c = true -> c = current_category st.

Lemma button_active_true bs c :
  button_active bs c = true <-> In (c, true) bs.
Proof.
  unfold button_active. rewrite existsb_exists. split.
  - intros [[c' b] [Hin Hp]]. apply andb_prop in Hp as [Hc Hb]. simpl in *.
    apply String.eqb_eq in Hc. subst. exact Hin.
  - intros Hin. exists (c, true). simpl. rewrite String.eqb_refl. auto.
Qed.

Lemma category_click_step c text st : category_inv st -> category_inv (click_category c text st).
Proof.
  intros Hinv c'. unfold click_category, on_category_changed. cbn [category_buttons].
  set (bs := map (fun p => if String.eqb (fst p) c then (fst p, negb (snd p)) else p)
                 (category_buttons st)).
  destruct (button_active bs c) eqn:Ea; simpl.
  - rewrite button_active_true, in_map_iff. intros [[c0 b0] [E Hin]]. simpl in E.
    destruct (String.eqb c0 c) eqn:Ec; [|discriminate].
    injection E as -> ->. apply String.eqb_eq in Ec. exact Ec.
  - rewrite button_active_true. intros Hin. subst bs. apply in_map_iff in Hin as [[c0 b0] [E Hin]].
    simpl in E. destruct (String.eqb c0 c) eqn:Ec.
    + injection E as E1 Hb. subst c'. apply String.eqb_eq in Ec. subst c0.
      exfalso. revert Ea. rewrite <- Bool.not_true_iff_false, button_active_true.
      intros Hn. apply Hn, in_map_iff. exists (c, b0). simpl. rewrite String.eqb_refl, Hb. auto.
    + injection E as E1 E2. subst c' b0. apply Hinv, button_active_true, Hin.
Qed.

Lemma category_init_inv : category_inv category_init.
Proof.
  intros c' H. apply button_active_true in H.
  unfold category_init, category_ids in *. cbn [category_buttons current_category map In] in *.
  repeat (destruct H as [H|H]; [inversion H; subst; reflexivity|]).
  destruct H.
Qed.

(** From the state [setup_store_tab] leaves, whatever buttons are clicked,
    every active category button is the current category: at most one
    button is active. *)
Theorem category_buttons_invariant (clicks : list (string * string)) (c : string) :
  let st := run_clicks clicks category_init in
  button_active (category_buttons st) c = true -> c = current_category st.
Proof.
  intros st. subst st. unfold run_clicks.
  pose proof category_init_inv as H0. revert H0. generalize category_init. induction clicks as [|[c0 t0] r IH]; intros st Hst; simpl.
  - apply Hst.
  - apply IH, category_click_step, Hst.
Qed.

Lemma category_buttons_invariant_witness :
  button_active (category_buttons (run_clicks [("Game", ""); ("all", "")] category_init)) "all"
    = true /\
  "all" = current_category (run_clicks [("Game", ""); ("all", "")] category_init).
Proof.
  assert (H : button_active (category_buttons (run_clicks [("Game", ""); ("all", "")]
                                                 category_init)) "all" = true) by reflexivity.
  split; [exact H|]. exact (category_buttons_invariant [("Game", ""); ("all", "")] "all" H).
Defined.

(** Clicking an inactive category button makes it the only active button
    and the current category, and redisplays the store once with that
    category and the stripped search text. *)
Theorem category_click_inactive (st : category_state) (c text : string) :
  In c (map fst (category_buttons st)) ->
  button_active (category_buttons st) c = false ->
  let st' := click_category c text st in
  (forall c', button_active (category_buttons st') c' = true <-> c' = c) /\
  current_category st' = c /\
  category_displays st' = (category_displays st ++ [(c, strip text)])%list.
Proof.
  intros Hin Hoff st'. subst st'. unfold click_category, on_category_changed.
  cbn [category_buttons].
  set (bs := map (fun p => if String.eqb (fst p) c then (fst p, negb (snd p)) else p)
                 (category_buttons st)).
  assert (Hon : button_active bs c = true).
  { apply in_map_iff in Hin as [[c0 b0] [E Hin]]. simpl in E. subst c0.
    apply button_active_true. subst bs. apply in_map_iff. exists (c, b0).
    simpl. rewrite String.eqb_refl. split; [|exact Hin].
    destruct b0; [|reflexivity]. exfalso.
    assert (button_active (category_buttons st) c = true) by (apply button_active_true; exact Hin).
    congruence. }
  rewrite Hon. simpl. split; [|split; reflexivity].
  intros c'. rewrite button_active_true, in_map_iff. split.
  - intros [[c0 b0] [E Hc]]. simpl in E. destruct (String.eqb c0 c) eqn:Ec; [|discriminate].
    injection E as -> ->. apply String.eqb_eq. exact Ec.
  - intros ->. apply button_active_true in Hon. exists (c, true). simpl.
    rewrite String.eqb_refl. auto.
Qed.

Lemma category_click_inactive_witness :
  let st' := click_category "Game" "  chess " category_init in
  (forall c', button_active (category_buttons st') c' = true <-> c' = "Game") /\
  current_category st' = "Game" /\
  category_displays st' = (category_displays category_init ++ [("Game", strip "  chess ")])%list.
Proof.
  apply (category_click_inactive category_init "Game" "  chess ").
  - cbn. repeat (first [left; reflexivity | right]).
  - reflexivity.
Defined.

(** Clicking the active category button turns it off: no category button
    is active any more, the store keeps the current category and is not
    redisplayed. *)
Theorem category_click_active (st : category_state) (c text : string) :
  category_inv st -> NoDup (map fst (category_buttons st)) ->
  button_active (category_buttons st) c = true ->
  let st' := click_category c text st in
  (forall c', button_active (category_buttons st') c' = false) /\
  current_category st' = current_category st /\
  category_displays st' = category_displays st.
Proof.
  intros Hinv Hnd Hon st'. subst st'.
  assert (Hc : c = current_category st) by (apply Hinv, Hon).
  apply button_active_true in Hon.
  unfold click_category, on_category_changed. cbn [category_buttons].
  set (bs := map (fun p => if String.eqb (fst p) c then (fst p, negb (snd p)) else p)
                 (category_buttons st)).
  assert (Hoff : forall c', button_active bs c' = false).
  { intros c'. apply Bool.not_true_iff_false. rewrite button_active_true.
    subst bs. rewrite in_map_iff. intros [[c0 b0] [E Hin]]. simpl in E.
    destruct (String.eqb c0 c) eqn:Ec.
    - apply String.eqb_eq in Ec. subst c0. injection E as E1 Hb. subst c'.
      destruct b0; [discriminate Hb|].
      (* the list names [c] once, and [(c, true)] is in it *)
      assert (Hu : forall b b', In (c, b) (category_buttons st) ->
                                In (c, b') (category_buttons st) -> b = b').
      { clear - Hnd. induction (category_buttons st) as [|[x y] l IHl]; simpl; [tauto|].
        inversion Hnd as [|? ? Hx Hl]; subst.
        intros b b' [E1|H1] [E2|H2].
        - congruence.
        - injection E1 as -> ->. exfalso. apply Hx, list_elem_of_In, in_map_iff. exists (c, b'). auto.
        - injection E2 as -> ->. exfalso. apply Hx, list_elem_of_In, in_map_iff. exists (c, b). auto.
        - eauto. }
      discriminate (Hu _ _ Hin Hon).
    - injection E as E1 E2. subst c' b0. apply String.eqb_neq in Ec.
      apply Ec. rewrite Hc. apply Hinv, button_active_true, Hin. }
  rewrite Hoff. simpl. split; [exact Hoff|]. split; reflexivity.
Qed.

Lemma category_click_active_witness :
  let st' := click_category "all" "" category_init in
  (forall c', button_active (category_buttons st') c' = false) /\
  current_category st' = current_category category_init /\
  category_displays st' = category_displays category_init.
Proof.
  apply (category_click_active category_init "all" "").
  - exact category_init_inv.
  - apply (bool_decide_unpack _). vm_compute. reflexivity.
  - reflexivity.
Defined.

(** [run] reaches the main window exactly when [flatpak --version]
    succeeds and then either [flatpak remotes] fails with a non-zero exit
    (ignored), its output mentions "flathub", or the user accepts adding
    the remote and [remote-add] succeeds. It leaves with an exception
    exactly when a check raises something other than what its [except]
    names: any non-[FileNotFoundError] at the version check, any exception
    from [flatpak remotes], or any from [remote-add] (even a missing
    binary). *)
Theorem run_startup_outcomes (version remotes remote_add : checked_run) (answer_yes : bool) :
  (snd (run_startup version remotes answer_yes remote_add) = StartWindow <->
   (exists v, version = CheckOk v) /\
   ((exists rc, remotes = CheckFailed rc) \/
    exists out, remotes = CheckOk out /\
      (contains "flathub" out = true \/
       (answer_yes = true /\ exists o, remote_add = CheckOk o)))) /\
  (snd (run_startup version remotes answer_yes remote_add) = StartRaised <->
   version = CheckRaised OtherError \/
   (exists v, version = CheckOk v) /\
   ((exists e, remotes = CheckRaised e) \/
    exists out, remotes = CheckOk out /\ contains "flathub" out = false /\
      answer_yes = true /\ exists e, remote_add = CheckRaised e)).
Proof.
  unfold run_startup.
  destruct version as [v|vrc|[]]; destruct remotes as [out|rrc|re];
    try destruct (contains "flathub" out) eqn:Ef; destruct answer_yes;
    destruct remote_add as [o|arc|ae]; cbn [snd negb];
    split; split; intros H;
    first [ reflexivity | discriminate H | solve [eauto 10]
          | solve [decompose [and or ex] H; congruence] ].
Qed.

Lemma guess_category_range app_id :
  exists c, _guess_category_from_id app_id = [c] /\
    In c ["Network"; "Office"; "Graphics"; "AudioVideo"; "Game"; "Development";
          "Utility"; "Other"].
Proof.
  unfold _guess_category_from_id.
  repeat match goal with |- context [if ?b then _ else _] => destruct b end;
    eexists; (split; [reflexivity|]); simpl; tauto.
Qed.

Lemma fallback_categories r a :
  In a (fst (_load_apps_via_flatpak r)) ->
  exists c, fp_categories a = [c] /\
    In c ["Network"; "Office"; "Graphics"; "AudioVideo"; "Game"; "Development";
          "Utility"; "Other"].
Proof.
  assert (Hpop : In a popular_apps -> exists c, fp_categories a = [c] /\
    In c ["Network"; "Office"; "Graphics"; "AudioVideo"; "Game"; "Development";
          "Utility"; "Other"]).
  { intros H. unfold popular_apps in H. simpl in H.
    repeat (destruct H as [<-|H]; [eexists; split; [reflexivity|]; simpl; tauto|]).
    destruct H. }
  destruct r as [e|rc out err]; simpl; [tauto|].
  destruct (if Z.eqb rc 0 then flat_map remote_line_apps (split_on NL (strip out)) else [])
    as [|x xs] eqn:E; [exact Hpop|].
  rewrite <- E. intros H. destruct (Z.eqb rc 0); [|discriminate].
  apply in_flat_map in H as [line [_ H]]. unfold remote_line_apps in H.
  destruct (str_truthy (strip line) && has_char TAB line); [|destruct H].
  destruct (split_on TAB line) as [|p0 [|p1 rest]]; [destruct H|destruct H|].
  destruct H as [<-|[]]. simpl. apply guess_category_range.
Qed.

(** When the API request fails in any way, the catalog comes from the
    fallback loader, whose categories are guessed or seeded and never
    "Education" nor "System": whatever [flatpak remote-ls] printed, the
    Education and System views show "No applications found" for every
    search. *)
Theorem api_failure_no_education_system (str_lower : string -> string)
    (label_accepts : json -> bool) (resp : http_result) (fallback : run_result) (c t : string) :
  api_apps resp = None -> c = "Education" \/ c = "System" ->
  display_apps str_lower label_accepts (fst (load_flathub_apps resp fallback)) c t = ViewNoApps.
Proof.
  intros Hapi Hc. unfold load_flathub_apps. rewrite Hapi. simpl fst.
  unfold display_apps.
  assert (Hf : forall apps, (forall a, In a apps -> In a (fst (_load_apps_via_flatpak fallback))) ->
               filter_apps str_lower (map flatpak_app_to_py apps) c t = Some []).
  { induction apps as [|a xs IH]; intros Hin; [reflexivity|].
    simpl. rewrite IH by (intros; apply Hin; right; assumption).
    destruct (fallback_categories fallback a (Hin a (or_introl eq_refl))) as [c0 [Hc0 Hin0]].
    unfold app_passes, flatpak_app_to_py, dget. simpl assoc_last. rewrite Hc0.
    destruct Hc as [->| ->]; simpl in Hin0; simpl;
      repeat (destruct Hin0 as [<-|Hin0]; [reflexivity|]); destruct Hin0. }
  rewrite Hf by auto. reflexivity.
Qed.

Lemma api_failure_no_education_system_witness :
  display_apps lower (fun _ => false)
    (fst (load_flathub_apps (HttpResponse 503 None)
            (RunDone 0 "org.kde.gcompris	GCompris	Educational games" "")))
    "Education" "" = ViewNoApps.
Proof.
  apply api_failure_no_education_system; [reflexivity | left; reflexivity].
Defined.

(** When the API request fails and [flatpak remote-ls] raises (missing
    binary, timeout), the catalog is empty: the store shows "No
    applications found" under every category and search, and the status
    reports 0 applications. *)
Theorem api_failure_fallback_raised_empty (str_lower : string -> string)
    (label_accepts : json -> bool) (resp : http_result) (e c t : string) :
  api_apps resp = None ->
  fst (load_flathub_apps resp (RunRaised e)) = [] /\
  display_apps str_lower label_accepts (fst (load_flathub_apps resp (RunRaised e))) c t
  = ViewNoApps /\
  In (PostStoreStatus "Loaded 0 applications via flatpak search")
     (snd (load_flathub_apps resp (RunRaised e))).
Proof.
  intros Hapi. unfold load_flathub_apps. rewrite Hapi. simpl.
  split; [reflexivity|]. split; [reflexivity|]. tauto.
Qed.

Lemma api_failure_fallback_raised_empty_witness :
  fst (load_flathub_apps (HttpRaised "Max retries exceeded") (RunRaised "No such file")) = [] /\
  display_apps lower (fun _ => false)
    (fst (load_flathub_apps (HttpRaised "Max retries exceeded")
            (RunRaised "No such file"))) "all" "" = ViewNoApps /\
  In (PostStoreStatus "Loaded 0 applications via flatpak search")
     (snd (load_flathub_apps (HttpRaised "Max retries exceeded") (RunRaised "No such file"))).
Proof. apply (api_failure_fallback_raised_empty lower (fun _ => false)). reflexivity. Defined.

(** When the API request fails and [flatpak remote-ls] exits non-zero,
    the first view ("all", empty search) shows the ten seeded apps, in
    order, with no "... more" label. *)
Theorem api_failure_seeded_view (str_lower : string -> string) (label_accepts : json -> bool)
    (resp : http_result) (rc : Z) (out err : string) :
  api_apps resp = None -> rc <> 0%Z ->
  display_apps str_lower label_accepts (fst (load_flathub_apps resp (RunDone rc out err))) "all" ""
  = ViewCards (map flatpak_app_to_py popular_apps) None.
Proof.
  intros Hapi Hrc. unfold load_flathub_apps. rewrite Hapi. simpl.
  apply Z.eqb_neq in Hrc. rewrite Hrc. reflexivity.
Qed.

Lemma api_failure_seeded_view_witness :
  display_apps lower (fun _ => false)
    (fst (load_flathub_apps (HttpResponse 500 None)
            (RunDone 1 "" "error: No remote refs found"))) "all" ""
  = ViewCards (map flatpak_app_to_py popular_apps) None.
Proof. apply (api_failure_seeded_view lower (fun _ => false)); [reflexivity | discriminate]. Defined.

Lemma bind_run {S A B} (m : StateM.t S A) (k : A -> StateM.t S B) (st : S) :
  StateM.bind m k st = k (fst (m st)) (snd (m st)).
Proof. unfold StateM.bind. destruct (m st). reflexivity. Qed.

Lemma download_image_hit {Image : Type} (md5 : string -> string)
    (dec : bytes -> Z -> Z -> Image + string) (dir url : string) (max_size : Z * Z)
    (resp : get_result) (st : cache_state) (b : bytes) (img : Image) :
  str_truthy url = true ->
  cache_files st !! cache_path md5 dir url = Some b ->
  dec b (fst max_size) (snd max_size) = inl img ->
  download_image md5 dec dir url max_size resp st = (Some img, st).
Proof.
  intros Hurl Hfile Hdec.
  unfold download_image, StateM.bind, StateM.gets. rewrite Hurl. simpl.
  rewrite Hfile, Hdec. reflexivity.
Qed.

Lemma download_image_some_cached {Image : Type} (md5 : string -> string)
    (dec : bytes -> Z -> Z -> Image + string) (dir url : string) (max_size : Z * Z)
    (resp : get_result) (st : cache_state) (img : Image) :
  StateM.eval (download_image md5 dec dir url max_size resp) st = Some img ->
  str_truthy url = true /\
  exists b, cache_files (StateM.exec (download_image md5 dec dir url max_size resp) st)
              !! cache_path md5 dir url = Some b /\
            dec b (fst max_size) (snd max_size) = inl img.
Proof.
  unfold download_image, StateM.eval, StateM.exec, StateM.bind, StateM.gets.
  intros Hr. destruct (str_truthy url) eqn:Hurl; simpl in *; [|discriminate].
  split; [reflexivity|].
  destruct (cache_files st !! cache_path md5 dir url) as [b|] eqn:Hfile; simpl in *.
  - destruct (dec b (fst max_size) (snd max_size)) as [img0|e] eqn:Hd; simpl in *.
    + injection Hr as ->. eauto.
    + destruct resp as [err|w err|body]; simpl in *; try discriminate.
      destruct (dec body (fst max_size) (snd max_size)) as [img1|e1] eqn:Hb; simpl in *;
        [|discriminate].
      injection Hr as ->. exists body. rewrite lookup_insert_eq. auto.
  - destruct resp as [err|w err|body]; simpl in *; try discriminate.
    destruct (dec body (fst max_size) (snd max_size)) as [img1|e1] eqn:Hb; simpl in *;
      [|discriminate].
    injection Hr as ->. exists body. rewrite lookup_insert_eq. auto.
Qed.

(** A cache file that decodes is returned as is: no request is made and
    the cache is left untouched. *)
Theorem download_image_cache_hit {Image : Type} (md5 : string -> string)
    (dec : bytes -> Z -> Z -> Image + string) (dir url : string) (max_size : Z * Z)
    (resp : get_result) (st : cache_state) (b : bytes) (img : Image) :
  str_truthy url = true ->
  cache_files st !! cache_path md5 dir url = Some b ->
  dec b (fst max_size) (snd max_size) = inl img ->
  StateM.eval (download_image md5 dec dir url max_size resp) st = Some img /\
  StateM.exec (download_image md5 dec dir url max_size resp) st = st.
Proof.
  intros Hurl Hfile Hdec. unfold StateM.eval, StateM.exec.
  rewrite (download_image_hit md5 dec dir url max_size resp st b img Hurl Hfile Hdec).
  split; reflexivity.
Qed.

Lemma download_image_cache_hit_witness :
  let st := {| cache_files := {[cache_path (fun u => u) sample_dir "https://example.org/c.png"
                                 := [Byte.x89]]};
               cache_log := [EvGet "https://example.org/c.png"] |} in
  StateM.eval (download_image (fun u => u) sample_decode sample_dir "https://example.org/c.png"
                 (400, 200)%Z (GetFailed "offline")) st = Some tt /\
  StateM.exec (download_image (fun u => u) sample_decode sample_dir "https://example.org/c.png"
                 (400, 200)%Z (GetFailed "offline")) st = st.
Proof.
  apply (download_image_cache_hit (fun u => u) sample_decode sample_dir
           "https://example.org/c.png" (400, 200)%Z (GetFailed "offline") _ [Byte.x89] tt);
    reflexivity.
Defined.

(** After a call that returned a pixbuf, a second call for the same URL
    and size returns the same pixbuf from the cache, whatever the network
    would answer, and changes nothing. *)
Theorem download_image_second_call_cached {Image : Type} (md5 : string -> string)
    (dec : bytes -> Z -> Z -> Image + string) (dir url : string) (max_size : Z * Z)
    (resp resp' : get_result) (st : cache_state) (img : Image) :
  StateM.eval (download_image md5 dec dir url max_size resp) st = Some img ->
  let st1 := StateM.exec (download_image md5 dec dir url max_size resp) st in
  StateM.eval (download_image md5 dec dir url max_size resp') st1 = Some img /\
  StateM.exec (download_image md5 dec dir url max_size resp') st1 = st1.
Proof.
  intros H st1.
  destruct (download_image_some_cached md5 dec dir url max_size resp st img H)
    as [Hurl [b [Hfile Hdec]]].
  unfold StateM.eval, StateM.exec. subst st1.
  rewrite (download_image_hit md5 dec dir url max_size resp' _ b img Hurl Hfile Hdec).
  split; reflexivity.
Qed.

Lemma download_image_second_call_cached_witness :
  let st := {| cache_files := ∅; cache_log := [] |} in
  let run r := download_image (fun u => u) sample_decode sample_dir "https://example.org/d.png"
                 (400, 200)%Z r in
  StateM.eval (run (GetOk [Byte.x89])) st = Some tt /\
  StateM.eval (run (GetFailed "offline")) (StateM.exec (run (GetOk [Byte.x89])) st) = Some tt /\
  StateM.exec (run (GetFailed "offline")) (StateM.exec (run (GetOk [Byte.x89])) st)
  = StateM.exec (run (GetOk [Byte.x89])) st.
Proof.
  assert (H : StateM.eval (download_image (fun u => u) sample_decode sample_dir
                             "https://example.org/d.png" (400, 200)%Z (GetOk [Byte.x89]))
                {| cache_files := ∅; cache_log := [] |} = Some tt) by reflexivity.
  split; [exact H|].
  exact (download_image_second_call_cached (fun u => u) sample_decode sample_dir
           "https://example.org/d.png" (400, 200)%Z (GetOk [Byte.x89]) (GetFailed "offline")
           {| cache_files := ∅; cache_log := [] |} tt H).
Defined.

Lemma download_image_miss_failed_run {Image : Type} (md5 : string -> string)
    (dec : bytes -> Z -> Z -> Image + string) (dir url : string) (max_size : Z * Z)
    (e : string) (st : cache_state) :
  str_truthy url = true ->
  cache_files st !! cache_path md5 dir url = None ->
  download_image md5 dec dir url max_size (GetFailed e) st
  = (None, {| cache_files := cache_files st;
              cache_log := (cache_log st ++ [EvGet url;
                              EvPrint ("Error downloading image " +++ url +++ ": " +++ e)])%list |}).
Proof.
  intros Hurl Hfile.
  unfold download_image, StateM.bind, StateM.gets. rewrite Hurl. simpl. rewrite Hfile.
  simpl. unfold download_error, log_event, StateM.modify, StateM.ret, StateM.bind. simpl.
  rewrite <- app_assoc. reflexivity.
Qed.

Lemma icon_url_truthy app_id : str_truthy (get_app_icon_url app_id) = true.
Proof. reflexivity. Qed.

Lemma icon_json_truthy app_id : truthy (JStr (get_app_icon_url app_id)) = true.
Proof. reflexivity. Qed.

(** When the detail request gives no usable screenshot, the URL list holds
    only the icon URL; if that icon is not cached and its download fails,
    the banner worker requests the same icon URL twice (at 400x180, then
    at 128x128 as the fallback) and sets no image. *)
Theorem media_banner_icon_fetched_twice {Image : Type} (md5 : string -> string)
    (dec : bytes -> Z -> Z -> Image + string) (dir : string) (net : string -> get_result)
    (app_id : string) (detail : http_result) (e : string) (st : cache_state) :
  let icon := get_app_icon_url app_id in
  get_app_screenshot_urls app_id detail = [JStr icon] ->
  net icon = GetFailed e ->
  cache_files st !! cache_path md5 dir icon = None ->
  let m := "Error downloading image " +++ icon +++ ": " +++ e in
  StateM.eval (load_worker md5 dec dir net app_id true detail) st = MediaNone /\
  cache_files (StateM.exec (load_worker md5 dec dir net app_id true detail) st) = cache_files st /\
  cache_log (StateM.exec (load_worker md5 dec dir net app_id true detail) st)
  = (cache_log st ++ [EvGet icon; EvPrint m; EvGet icon; EvPrint m])%list.
Proof.
  intros icon Hurls Hnet Hfile m. subst icon m.
  pose proof (download_image_miss_failed_run md5 dec dir _ (400, 180)%Z e st
                (icon_url_truthy app_id) Hfile) as H1.
  pose proof (download_image_miss_failed_run md5 dec dir _ (128, 128)%Z e
                {| cache_files := cache_files st;
                   cache_log := (cache_log st ++ [EvGet (get_app_icon_url app_id);
                     EvPrint ("Error downloading image " +++ get_app_icon_url app_id +++
                              ": " +++ e)])%list |}
                (icon_url_truthy app_id) Hfile) as H2.
  unfold StateM.eval, StateM.exec, load_worker, download_first, download_url,
    StateM.bind, StateM.ret.
  rewrite Hurls, icon_json_truthy. cbn [negb]. rewrite Hnet, H1. cbv beta iota.
  rewrite H2. cbv beta iota. cbn [fst snd cache_files cache_log].
  rewrite <- app_assoc. split; [reflexivity|]. split; reflexivity.
Qed.

Lemma media_banner_icon_fetched_twice_witness :
  let icon := get_app_icon_url "org.example.App" in
  let net := fun _ : string => GetFailed "Max retries exceeded" in
  let st := {| cache_files := ∅; cache_log := [] |} in
  let m := "Error downloading image " +++ icon +++ ": " +++ "Max retries exceeded" in
  StateM.eval (load_worker (fun u => u) sample_decode sample_dir net "org.example.App" true
                 (HttpResponse 404 None)) st = MediaNone /\
  cache_files (StateM.exec (load_worker (fun u => u) sample_decode sample_dir net
                              "org.example.App" true (HttpResponse 404 None)) st) = cache_files st /\
  cache_log (StateM.exec (load_worker (fun u => u) sample_decode sample_dir net
                            "org.example.App" true (HttpResponse 404 None)) st)
  = (cache_log st ++ [EvGet icon; EvPrint m; EvGet icon; EvPrint m])%list.
Proof.
  apply (media_banner_icon_fetched_twice (fun u => u) sample_decode sample_dir
           (fun _ => GetFailed "Max retries exceeded") "org.example.App"
           (HttpResponse 404 None) "Max retries exceeded" {| cache_files := ∅; cache_log := [] |});
    reflexivity.
Defined.

(** A first screenshot whose "imgDesktopUrl" is a truthy non-string (a
    number, a list) makes the banner worker fail at [url.encode()]: the
    exception reaches its [except], so no image is set, the icon is not
    tried and the cache is not touched. *)
Theorem media_banner_nonstring_url_error {Image : Type} (md5 : string -> string)
    (dec : bytes -> Z -> Z -> Image + string) (dir : string) (net : string -> get_result)
    (app_id : string) (detail : http_result) (v : json) (st : cache_state) :
  get_app_screenshot_urls app_id detail = [v] ->
  truthy v = true -> (forall s, v <> JStr s) ->
  load_worker md5 dec dir net app_id true detail st = (@MediaError Image, st).
Proof.
  intros Hurls Ht Hs. unfold load_worker.
  rewrite !bind_run. rewrite Hurls. cbn [download_first].
  rewrite !bind_run. unfold download_url. rewrite Ht. cbn [negb].
  destruct v; try (exfalso; eapply Hs; reflexivity); reflexivity.
Qed.

Lemma media_banner_nonstring_url_error_witness :
  load_worker (fun u => u) sample_decode sample_dir (fun _ => GetFailed "unused")
    "org.example.App" true
    (HttpResponse 200 (Some (JObj [("screenshots", JArr [JObj [("imgDesktopUrl", JNum 1)]])])))
    {| cache_files := ∅; cache_log := [] |}
  = (MediaError, {| cache_files := ∅; cache_log := [] |}).
Proof.
  apply (media_banner_nonstring_url_error _ _ _ _ _ _ (JNum 1));
    [reflexivity | reflexivity | intros s Hs; discriminate].
Defined.

(** A first screenshot whose "imgDesktopUrl" is missing, empty or null is
    skipped without a request ([if not url]); the banner then shows the
    icon at 128x128, exactly as a direct download of the icon would. *)
Theorem media_banner_falsy_url_icon {Image : Type} (md5 : string -> string)
    (dec : bytes -> Z -> Z -> Image + string) (dir : string) (net : string -> get_result)
    (app_id : string) (detail : http_result) (v : json) (st : cache_state) :
  get_app_screenshot_urls app_id detail = [v] -> truthy v = false ->
  let icon := get_app_icon_url app_id in
  let run := download_image md5 dec dir icon (128, 128)%Z (net icon) in
  load_worker md5 dec dir net app_id true detail st
  = (match StateM.eval run st with Some img => MediaSet img | None => MediaNone end,
     StateM.exec run st).
Proof.
  intros Hurls Hv icon run. subst run icon.
  unfold StateM.eval, StateM.exec, load_worker, download_first, download_url,
    StateM.bind, StateM.ret.
  rewrite Hurls, Hv. cbv beta iota delta [negb]. rewrite icon_json_truthy.
  cbv beta iota delta [negb].
  destruct (download_image md5 dec dir (get_app_icon_url app_id) (128, 128)%Z
              (net (get_app_icon_url app_id)) st) as [[img|] st'];
    reflexivity.
Qed.

Lemma media_banner_falsy_url_icon_witness :
  load_worker (fun u => u) sample_decode sample_dir (fun _ => GetOk [Byte.x89])
    "org.example.App" true
    (HttpResponse 200 (Some (JObj [("screenshots", JArr [JObj [("imgDesktopUrl", JNull)]])])))
    {| cache_files := ∅; cache_log := [] |}
  = (match StateM.eval (download_image (fun u => u) sample_decode sample_dir
                          (get_app_icon_url "org.example.App") (128, 128)%Z (GetOk [Byte.x89]))
             {| cache_files := ∅; cache_log := [] |} with
     | Some img => MediaSet img | None => MediaNone end,
     StateM.exec (download_image (fun u => u) sample_decode sample_dir
                    (get_app_icon_url "org.example.App") (128, 128)%Z (GetOk [Byte.x89]))
       {| cache_files := ∅; cache_log := [] |}).
Proof.
  apply (media_banner_falsy_url_icon (fun u => u) sample_decode sample_dir
           (fun _ => GetOk [Byte.x89]) "org.example.App" _ JNull); reflexivity.
Defined.
